(** * lrsManagementRest: a REST client for a local management API

    A shallow embedding of [lrsManagementRest.js] and the properties of its
    login/session bookkeeping, option normaliser, request builders and error
    proxy.

    The first part models the fragment of the JavaScript runtime the module
    relies on (values, truthiness, string conversion, property access,
    [String.prototype.split] and [indexOf], [JSON.stringify]); the second
    part is the module itself, function by function, under the names of the
    source; the third part states and proves the properties. *)

From Stdlib Require Import String Ascii ZArith List Bool Lia.
From Stdlib Require Import DecimalString.
Import ListNotations.

Set Warnings "-register-all".

Open Scope list_scope.
Open Scope string_scope.

(** ** JavaScript values *)

(** Functions are opaque to the model.  A function supplied by the caller
    carries the text [Function.prototype.toString] gives for it; the three
    functions of the module that are used as response callbacks are named. *)
Inductive fn : Type :=
| UserFn (id : nat) (source : string)
| PrintResponse
| LoginCallback
| LogoutCallback.

(** The modelled fragment of values: [undefined], [null], booleans, numbers
    that are integers, strings (a character of the Rocq string stands for one
    code unit), arrays, plain objects and functions.  An object is the list of
    its own enumerable properties in insertion order; its keys are distinct.
    Objects have no inherited properties. *)
Inductive value : Type :=
| VUndefined
| VNull
| VBool (b : bool)
| VNum (n : Z)
| VStr (s : string)
| VArr (elems : list value)
| VObj (props : list (string * value))
| VFun (f : fn).

Definition obj : Type := list (string * value).

Inductive jsError : Type :=
| TypeError (msg : string)
| JsError (msg : string)
| UnhandledError (payload : value).

Definition error_message (e : jsError) : string :=
  match e with
  | TypeError m => m
  | JsError m => m
  | UnhandledError _ => "Unhandled error."
  end.

Inductive outcome (A : Type) : Type :=
| Ok (a : A)
| Throw (e : jsError).
Arguments Ok {A} a.
Arguments Throw {A} e.

Definition dq : string := String (ascii_of_nat 34) "".

Module Js.

(** [ToBoolean] *)
Definition truthy (v : value) : bool :=
  match v with
  | VUndefined | VNull => false
  | VBool b => b
  | VNum n => negb (n =? 0)%Z
  | VStr s => negb (s =? "")
  | VArr _ | VObj _ | VFun _ => true
  end.

(** [a || b] *)
Definition or_else (a b : value) : value := if truthy a then a else b.

Definition nullish (v : value) : bool :=
  match v with
  | VUndefined | VNull => true
  | _ => false
  end.

(** Decimal text of an integer number. *)
Definition number_to_string (n : Z) : string :=
  NilZero.string_of_int (Z.to_int n).

Definition printResponse_source : string :=
"function printResponse(response)
{
    var body = '';
    response.on('end', function() {
      console.log('Management REST xaction STATUS: ' + response.statusCode);
      if (body !== '') {
        console.log('Management REST xaction BODY: ' + body);
      }
    });
    response.on('data', function(chunk) { body += chunk; });
}".

Definition logoutCallback_source : string :=
"function(logoutResponse) {
                    self.loggedIn = false;
                    self.emit('logout');
            }".

Definition loginCallback_source : string :=
"function(loginResponse) {
                var body = " ++ dq ++ dq ++ ";
                var checkBody = function() {
                    if (body.indexOf(" ++ dq ++ "login" ++ dq ++ ") != -1) {
                        self.emit('loginFailure', loginResponse, body);
                    } else {
			var setCookieHdr = loginResponse.headers['set-cookie'];
			if(setCookieHdr instanceof Array) {
			    setCookieHdr = setCookieHdr[0];
			}
                        self.sid = setCookieHdr.split('; ')[0];
                        self.loggedIn = true;
                        self.emit('login');
                    }
                };
                loginResponse.on('data', function(chunk) {body += chunk;});
                loginResponse.on('end', checkBody);
            }".

Definition fn_source (f : fn) : string :=
  match f with
  | UserFn _ src => src
  | PrintResponse => printResponse_source
  | LoginCallback => loginCallback_source
  | LogoutCallback => logoutCallback_source
  end.

(** [ToString]; an array joins its elements with a comma, [null] and
    [undefined] elements giving the empty string. *)
Fixpoint to_string (v : value) : string :=
  match v with
  | VUndefined => "undefined"
  | VNull => "null"
  | VBool true => "true"
  | VBool false => "false"
  | VNum n => number_to_string n
  | VStr s => s
  | VArr l =>
      String.concat ","
        (map (fun x => if nullish x then "" else to_string x) l)
  | VObj _ => "[object Object]"
  | VFun f => fn_source f
  end.

(** *** Properties *)

Fixpoint lookup (k : string) (o : obj) : option value :=
  match o with
  | [] => None
  | (k', v) :: o' => if k' =? k then Some v else lookup k o'
  end.

(** [o[k]] on a plain object: [undefined] when there is no such property. *)
Definition prop (o : obj) (k : string) : value :=
  match lookup k o with
  | Some v => v
  | None => VUndefined
  end.

(** [o[k] = v]: an existing property keeps its place. *)
Fixpoint set_prop (k : string) (v : value) (o : obj) : obj :=
  match o with
  | [] => [(k, v)]
  | (k', v') :: o' =>
      if k' =? k then (k, v) :: o' else (k', v') :: set_prop k v o'
  end.

Definition indexed {A : Type} (l : list A) : list (string * A) :=
  combine (map (fun i => number_to_string (Z.of_nat i)) (seq 0 (length l))) l.

Definition chars (s : string) : list string :=
  map (fun c => String c "") (list_ascii_of_string s).

(** Own enumerable properties, in [for ... in] order. *)
Definition own_props (v : value) : obj :=
  match v with
  | VObj ps => ps
  | VArr l => indexed l
  | VStr s => indexed (map VStr (chars s))
  | _ => []
  end.

(** [v[k]] for a [v] that is neither [undefined] nor [null]. *)
Definition get_prop (v : value) (k : string) : value :=
  match lookup k (own_props v) with
  | Some x => x
  | None =>
      match v with
      | VArr l => if k =? "length" then VNum (Z.of_nat (length l)) else VUndefined
      | VStr s => if k =? "length" then VNum (Z.of_nat (String.length s)) else VUndefined
      | _ => VUndefined
      end
  end.

(** [v[k]] in general: reading a property of [undefined] or [null] throws. *)
Definition member (v : value) (k : string) : outcome value :=
  if nullish v
  then Throw (TypeError ("Cannot read property '" ++ k ++ "' of " ++ to_string v))
  else Ok (get_prop v k).

(** [Object.getOwnPropertyNames] *)
Definition getOwnPropertyNames (v : value) : outcome (list string) :=
  match v with
  | VUndefined | VNull =>
      Throw (TypeError "Cannot convert undefined or null to object")
  | VArr _ | VStr _ => Ok (map fst (own_props v) ++ ["length"])%list
  | _ => Ok (map fst (own_props v))
  end.

(** *** Strings *)

(** [s.indexOf(needle)]: the first position at which [needle] occurs, or -1. *)
Fixpoint indexOf_from (s needle : string) (i : Z) : Z :=
  if prefix needle s then i
  else match s with
       | "" => (-1)%Z
       | String _ s' => indexOf_from s' needle (i + 1)
       end.

Definition indexOf (s needle : string) : Z := indexOf_from s needle 0.

(** [s.split(sep)]: [cur] is the piece being read, [skip] the number of
    characters of a separator still to pass over. *)
Fixpoint split_from (sep s : string) (skip : nat) (cur : string) : list string :=
  match s with
  | "" => [cur]
  | String c s' =>
      match skip with
      | S k => split_from sep s' k cur
      | O =>
          if prefix sep s
          then cur :: split_from sep s' (String.length sep - 1) ""
          else split_from sep s' 0 (cur ++ String c "")
      end
  end.

Definition split (s sep : string) : list string :=
  if sep =? "" then chars s else split_from sep s 0 "".

(** [v.split(sep)] on an arbitrary value: only strings have the method. *)
Definition split_method (v : value) (sep : string) : outcome (list string) :=
  match v with
  | VStr s => Ok (split s sep)
  | VUndefined | VNull =>
      Throw (TypeError ("Cannot read property 'split' of " ++ to_string v))
  | _ => Throw (TypeError "setCookieHdr.split is not a function")
  end.

(** *** JSON.stringify *)

Definition hex_digit (n : nat) : string :=
  String (ascii_of_nat (if (n <? 10)%nat then 48 + n else 87 + n)) "".

Definition json_escape_char (c : ascii) : string :=
  let n := nat_of_ascii c in
  if (n =? 34)%nat then "\" ++ dq
  else if (n =? 92)%nat then "\\"
  else if (n =? 8)%nat then "\b"
  else if (n =? 9)%nat then "\t"
  else if (n =? 10)%nat then "\n"
  else if (n =? 12)%nat then "\f"
  else if (n =? 13)%nat then "\r"
  else if (n <? 32)%nat then "\u00" ++ hex_digit (n / 16) ++ hex_digit (n mod 16)
  else String c "".

Definition json_quote (s : string) : string :=
  dq ++ String.concat "" (map json_escape_char (list_ascii_of_string s)) ++ dq.

(** [None] stands for the result [undefined]. *)
Fixpoint stringify (v : value) : option string :=
  match v with
  | VUndefined => None
  | VFun _ => None
  | VNull => Some "null"
  | VBool true => Some "true"
  | VBool false => Some "false"
  | VNum n => Some (number_to_string n)
  | VStr s => Some (json_quote s)
  | VArr l =>
      Some ("[" ++ String.concat ","
              (map (fun x => match stringify x with
                             | Some t => t
                             | None => "null"
                             end) l) ++ "]")
  | VObj ps =>
      Some ("{" ++ String.concat ","
              (flat_map (fun kx => match stringify (snd kx) with
                                   | Some t => [json_quote (fst kx) ++ ":" ++ t]
                                   | None => []
                                   end) ps) ++ "}")
  end.

(** [JSON.stringify(v)] for data: values none of whose objects has a
    function as [toJSON] member.  For such a value, a finite tree, the real
    function returns what [stringify] gives and cannot throw.  An object with
    a [toJSON] method is serialised through that method, a function of the
    caller that may return anything or throw; that case is not modelled.
    Only for data does [toJsonString] below stand for the function of the
    module, whose [catch] branch is taken when such a method throws. *)
Definition JSON_stringify (v : value) : outcome value :=
  match stringify v with
  | Some s => Ok (VStr s)
  | None => Ok VUndefined
  end.

End Js.
Import Js.

(** ** The host environment

    The event emitter, the HTTP transport and the tick queue are modelled
    through the state they keep: the events emitted on the client, the
    requests handed to the transport, the callbacks queued for the next tick,
    the lines printed and the calls made to functions of the caller. *)

Record IncomingMessage : Type := mkResponse {
  statusCode : Z;
  headers : obj;
  chunks : list string
}.

Inductive event : Type :=
| Ev_error (error : value)
| Ev_login
| Ev_logout
| Ev_loginFailure (loginResponse : IncomingMessage) (body : string)
| Ev_loginRequestFailure (error : value)
| Ev_logoutRequestFailure (error : value).

Definition event_name (e : event) : string :=
  match e with
  | Ev_error _ => "error"
  | Ev_login => "login"
  | Ev_logout => "logout"
  | Ev_loginFailure _ _ => "loginFailure"
  | Ev_loginRequestFailure _ => "loginRequestFailure"
  | Ev_logoutRequestFailure _ => "logoutRequestFailure"
  end.

(** The listeners of a request's 'error' event: the three the module
    installs, and the caller's own. *)
Inductive errorListener : Type :=
| ErrorProxy
| LoginRequestFailure
| LogoutRequestFailure
| UserListener (f : fn).

Record ClientRequest : Type := mkRequest {
  req_options : obj;
  req_callback : value;
  req_headers : obj;
  req_errorListeners : list errorListener;
  req_written : list string;
  req_ended : bool
}.

Inductive tick : Type :=
| LoginTick.

Inductive userCall : Type :=
| CalledWithResponse (f : fn) (response : IncomingMessage)
| CalledWithError (f : fn) (error : value).

(** The fields of a [Client]; [clientErrorListeners] counts the listeners the
    caller has registered for the client's 'error' event. *)
Record Client : Type := mkClient {
  loggedIn : bool;
  sid : value;
  apiPrefix : string;
  connectionOptions : value;
  clientErrorListeners : nat
}.

Record World : Type := mkWorld {
  self : Client;
  emitted : list event;
  requests : list ClientRequest;
  nextTickQueue : list tick;
  console : list string;
  userCalls : list userCall
}.

Definition set_self (c : Client) (w : World) : World :=
  mkWorld c (emitted w) (requests w) (nextTickQueue w) (console w) (userCalls w).
Definition set_emitted (es : list event) (w : World) : World :=
  mkWorld (self w) es (requests w) (nextTickQueue w) (console w) (userCalls w).
Definition set_requests (rs : list ClientRequest) (w : World) : World :=
  mkWorld (self w) (emitted w) rs (nextTickQueue w) (console w) (userCalls w).
Definition set_nextTickQueue (q : list tick) (w : World) : World :=
  mkWorld (self w) (emitted w) (requests w) q (console w) (userCalls w).
Definition set_console (ls : list string) (w : World) : World :=
  mkWorld (self w) (emitted w) (requests w) (nextTickQueue w) ls (userCalls w).
Definition set_userCalls (cs : list userCall) (w : World) : World :=
  mkWorld (self w) (emitted w) (requests w) (nextTickQueue w) (console w) cs.

Definition set_emitted_snoc (e : event) (w : World) : World :=
  set_emitted (emitted w ++ [e])%list w.

Definition set_loggedIn (b : bool) (c : Client) : Client :=
  mkClient b (sid c) (apiPrefix c) (connectionOptions c) (clientErrorListeners c).
Definition set_sid (v : value) (c : Client) : Client :=
  mkClient (loggedIn c) v (apiPrefix c) (connectionOptions c) (clientErrorListeners c).
Definition set_connectionOptions (v : value) (c : Client) : Client :=
  mkClient (loggedIn c) (sid c) (apiPrefix c) v (clientErrorListeners c).
Definition set_clientErrorListeners (n : nat) (c : Client) : Client :=
  mkClient (loggedIn c) (sid c) (apiPrefix c) (connectionOptions c) n.

(** *** Computations: state of the world, and exceptions *)

Definition M (A : Type) : Type := World -> outcome A * World.

Definition ret {A : Type} (a : A) : M A := fun w => (Ok a, w).

Definition bind {A B : Type} (m : M A) (k : A -> M B) : M B :=
  fun w =>
    match m w with
    | (Ok a, w') => k a w'
    | (Throw e, w') => (Throw e, w')
    end.

Definition throw {A : Type} (e : jsError) : M A := fun w => (Throw e, w).
Definition lift {A : Type} (o : outcome A) : M A := fun w => (o, w).
Definition gets {A : Type} (f : World -> A) : M A := fun w => (Ok (f w), w).
Definition modify (f : World -> World) : M unit := fun w => (Ok tt, f w).
Definition modify_self (f : Client -> Client) : M unit :=
  modify (fun w => set_self (f (self w)) w).

Notation "x <- m ;; k" := (bind m (fun x => k))
  (at level 61, m at next level, right associativity).
Notation "m ;; k" := (bind m (fun _ => k))
  (at level 61, right associativity).

(** [self.emit(...)].  An 'error' event nobody listens to is thrown by the
    emitter. *)
Definition emit (e : event) : M unit :=
  modify (set_emitted_snoc e) ;;
  match e with
  | Ev_error payload =>
      n <- gets (fun w => clientErrorListeners (self w)) ;;
      if (n =? 0)%nat then throw (UnhandledError payload) else ret tt
  | _ => ret tt
  end.

(** *** The HTTP transport *)

Fixpoint alter_nth {A : Type} (i : nat) (f : A -> A) (l : list A) : list A :=
  match l, i with
  | [], _ => []
  | x :: l', O => f x :: l'
  | x :: l', S j => x :: alter_nth j f l'
  end.

Fixpoint remove_prop (k : string) (o : obj) : obj :=
  match o with
  | [] => []
  | (k', v) :: o' => if k' =? k then remove_prop k o' else (k', v) :: remove_prop k o'
  end.

Definition is_function (v : value) : bool :=
  match v with
  | VFun _ => true
  | _ => false
  end.

(** [http.request(requestOptions, callback)]: a request object is created
    with the headers of [requestOptions.headers] and [callback] as listener
    of its 'response' event; a callback that is given and is not a function
    is refused.  The request is known by its position in [requests]. *)
Definition http_request (requestOptions : obj) (callback : value) : M nat :=
  if truthy callback && negb (is_function callback)
  then throw (TypeError "listener must be a function")
  else
    id <- gets (fun w => length (requests w)) ;;
    let req := mkRequest requestOptions callback
                 (own_props (prop requestOptions "headers")) [] [] false in
    modify (fun w => set_requests (requests w ++ [req])%list w) ;;
    ret id.

Definition update_request (req : nat) (f : ClientRequest -> ClientRequest) : M unit :=
  modify (fun w => set_requests (alter_nth req f (requests w)) w).

Definition removeHeader (req : nat) (name : string) : M unit :=
  update_request req (fun r =>
    mkRequest (req_options r) (req_callback r) (remove_prop name (req_headers r))
      (req_errorListeners r) (req_written r) (req_ended r)).

Definition setHeader (req : nat) (name : string) (v : value) : M unit :=
  update_request req (fun r =>
    mkRequest (req_options r) (req_callback r) (set_prop name v (req_headers r))
      (req_errorListeners r) (req_written r) (req_ended r)).

(** [req.on('error', listener)] *)
Definition on_error (req : nat) (listener : errorListener) : M unit :=
  update_request req (fun r =>
    mkRequest (req_options r) (req_callback r) (req_headers r)
      (req_errorListeners r ++ [listener])%list (req_written r) (req_ended r)).

(** [req.write(data)]: only a string can be written. *)
Definition write (req : nat) (data : value) : M unit :=
  match data with
  | VStr s =>
      update_request req (fun r =>
        mkRequest (req_options r) (req_callback r) (req_headers r)
          (req_errorListeners r) (req_written r ++ [s])%list (req_ended r))
  | _ => throw (TypeError "first argument must be a string or Buffer")
  end.

(** [req.end()] *)
Definition end_ (req : nat) : M unit :=
  update_request req (fun r =>
    mkRequest (req_options r) (req_callback r) (req_headers r)
      (req_errorListeners r) (req_written r) true).

(** [process.nextTick(f)] *)
Definition nextTick (t : tick) : M unit :=
  modify (fun w => set_nextTickQueue (nextTickQueue w ++ [t])%list w).

(** [console.log(line)] *)
Definition console_log (line : string) : M unit :=
  modify (fun w => set_console (console w ++ [line])%list w).

Definition record_call (c : userCall) : M unit :=
  modify (fun w => set_userCalls (userCalls w ++ [c])%list w).

(** ** The module *)

Definition unixSockName : string := "/tmp/rest_server/http.sock".

Definition missingArgError (name : string) : jsError :=
  JsError ("Missing required argument: " ++ name).

(** [mergeOptions(obj1, obj2)] *)
Definition mergeOptions (obj1 obj2 : value) : outcome obj :=
  let obj3 := [] in
  match getOwnPropertyNames obj1 with
  | Throw e => Throw e
  | Ok names1 =>
      let obj3 :=
        fold_left (fun o attrname => set_prop attrname (get_prop obj1 attrname) o)
          names1 obj3 in
      match getOwnPropertyNames obj2 with
      | Throw e => Throw e
      | Ok names2 =>
          Ok (fold_left (fun o attrname => set_prop attrname (get_prop obj2 attrname) o)
                names2 obj3)
      end
  end.

(** [testRequiredOptions(options, requiredOptions)] *)
Fixpoint testRequiredOptions (options : value) (requiredOptions : list string)
  : outcome unit :=
  match requiredOptions with
  | [] => Ok tt
  | opt :: rest =>
      match member options opt with
      | Throw e => Throw e
      | Ok v =>
          if negb (truthy v) then Throw (missingArgError opt)
          else testRequiredOptions options rest
      end
  end.

(** [isString(obj)] *)
Definition isString (v : value) : bool :=
  match v with
  | VStr _ => true
  | _ => false
  end.

(** [toJsonString(arg)] *)
Definition toJsonString (arg : value) : outcome value :=
  if isString arg then Ok arg
  else
    match JSON_stringify arg with
    | Ok v => Ok v
    | Throw err =>
        let message := "Argument could not be converted to JSON" in
        let message :=
          if negb (error_message err =? "")
          then message ++ " (" ++ error_message err ++ ")"
          else message in
        Throw (JsError message)
    end.

(** [args[i]] *)
Definition arg (args : list value) (i : nat) : value := nth i args VUndefined.

(** [for (var i = 0; i < n; ++i) body] *)
Definition for_loop {A : Type} (n : nat) (body : nat -> A -> A) (a : A) : A :=
  fold_left (fun a i => body i a) (seq 0 n) a.

Definition moreArgumentsError (requiredArgs : list string) : jsError :=
  JsError ("More arguments required (" ++ String.concat "," requiredArgs ++ ")").

(** [Math.min(a, b)] as the bound of a counting loop. *)
Definition loop_bound (a b : Z) : nat := Z.to_nat (Z.min a b).

(** [parseOptions(args, requiredArgs, optionalArgs)] *)
Definition parseOptions (args : list value) (requiredArgs optionalArgs : list string)
  : outcome obj :=
  if (length args =? 0)%nat then
    if (length requiredArgs =? 0)%nat then Ok []
    else Throw (moreArgumentsError requiredArgs)
  else
    let toReturn : obj := [] in
    if isString (arg args 0) then
      if (length args <? length requiredArgs)%nat
      then Throw (moreArgumentsError requiredArgs)
      else
        let toReturn :=
          for_loop (length requiredArgs)
            (fun i o => set_prop (nth i requiredArgs "") (arg args i) o) toReturn in
        let availOptionalArgs :=
          loop_bound (Z.of_nat (length args) - Z.of_nat (length requiredArgs))
            (Z.of_nat (length optionalArgs)) in
        let toReturn :=
          for_loop availOptionalArgs
            (fun i o => set_prop (nth i optionalArgs "")
                          (arg args (length requiredArgs + i)) o) toReturn in
        Ok toReturn
    else
      match testRequiredOptions (arg args 0) requiredArgs with
      | Throw e => Throw e
      | Ok _ =>
          let toReturn :=
            fold_left (fun o key => set_prop key (get_prop (arg args 0) key) o)
              (map fst (own_props (arg args 0))) toReturn in
          let availOptionalArgs :=
            loop_bound (Z.of_nat (length args) - 1) (Z.of_nat (length optionalArgs)) in
          let toReturn :=
            for_loop availOptionalArgs
              (fun i o => set_prop (nth i optionalArgs "") (arg args (1 + i)) o)
              toReturn in
          Ok toReturn
      end.

(** *** Request builders *)

(** [requestOptions.headers.Cookie = cookie].  In every state the module
    reaches, [requestOptions.headers] is the object literal of the builder. *)
Definition set_headers_Cookie (requestOptions : obj) (cookie : value) : outcome obj :=
  match prop requestOptions "headers" with
  | VObj hs => Ok (set_prop "headers" (VObj (set_prop "Cookie" cookie hs)) requestOptions)
  | v => Throw (TypeError ("Cannot set property 'Cookie' of " ++ to_string v))
  end.

(** The statements the four builders share after their object literal:
    merge in the connection target, add the cookie, create the request and
    replace its Host header. *)
Definition finishReq (options : obj) (connectionOptions : value) (requestOptions : obj)
  : M nat :=
  requestOptions <- lift (mergeOptions (VObj requestOptions) connectionOptions) ;;
  requestOptions <-
    (if truthy (prop options "cookie")
     then lift (set_headers_Cookie requestOptions (prop options "cookie"))
     else ret requestOptions) ;;
  req <- http_request requestOptions (prop options "callback") ;;
  removeHeader req "Host" ;;
  setHeader req "Host"
    (VStr (to_string (prop options "host") ++ ":" ++ to_string (prop options "port"))) ;;
  ret req.

Definition getPostReq (options : obj) (connectionOptions : value) : M nat :=
  lift (testRequiredOptions (VObj options) ["path"; "contentLength"; "contentType"]) ;;
  finishReq options connectionOptions
    [("path", prop options "path");
     ("method", VStr "POST");
     ("agent", VBool false);
     ("headers", VObj [("Accept", VStr "*/*");
                       ("Content-Length", prop options "contentLength");
                       ("Content-Type", prop options "contentType")])].

Definition getGetReq (options : obj) (connectionOptions : value) : M nat :=
  lift (testRequiredOptions (VObj options) ["path"]) ;;
  finishReq options connectionOptions
    [("path", prop options "path");
     ("method", VStr "GET");
     ("agent", VBool false);
     ("headers", VObj [("Accept", VStr "*/*")])].

Definition getDeleteReq (options : obj) (connectionOptions : value) : M nat :=
  lift (testRequiredOptions (VObj options) ["path"]) ;;
  finishReq options connectionOptions
    [("path", prop options "path");
     ("method", VStr "DELETE");
     ("headers", VObj [("Accept", VStr "*/*")])].

Definition getPutReq (options : obj) (connectionOptions : value) : M nat :=
  lift (testRequiredOptions (VObj options) ["path"; "contentLength"; "contentType"]) ;;
  finishReq options connectionOptions
    [("path", prop options "path");
     ("method", VStr "PUT");
     ("headers", VObj [("Accept", VStr "*/*");
                       ("Content-Length", prop options "contentLength");
                       ("Content-Type", prop options "contentType")])].

(** *** The client *)

(** [self.connectionOptions[k] = v] *)
Definition set_connectionOption (k : string) (v : value) : M unit :=
  co <- gets (fun w => connectionOptions (self w)) ;;
  match co with
  | VObj ps => modify_self (set_connectionOptions (VObj (set_prop k v ps)))
  | _ => throw (TypeError ("Cannot set property '" ++ k ++ "' of " ++ to_string co))
  end.

(** [installErrorProxy(req)] *)
Definition installErrorProxy (req : nat) : M unit := on_error req ErrorProxy.

(** [logIn(options)].  [safeOpts] is truthy, so reading its properties does
    not throw. *)
Definition logIn (options : value) : M unit :=
  let safeOpts := or_else options (VObj []) in
  if truthy (get_prop safeOpts "username") && negb (truthy (get_prop safeOpts "password"))
  then
    emit (Ev_error (VObj [("message",
            VStr ("Client login options contained the username " ++ " but no password."))]))
  else if negb (truthy (get_prop safeOpts "username")) && truthy (get_prop safeOpts "password")
  then
    emit (Ev_error (VObj [("message",
            VStr ("Client login options contained the password " ++ " but no username."))]))
  else
    let username := or_else (get_prop safeOpts "username") (VStr "testlab") in
    let password := or_else (get_prop safeOpts "password") (VStr "changeme") in
    let data := "username=" ++ to_string username ++ "&password=" ++ to_string password in
    let localOptions : obj :=
      [("path", or_else (get_prop safeOpts "path") (VStr "/login"));
       ("contentLength", VNum (Z.of_nat (String.length data)));
       ("contentType", VStr "application/x-www-form-urlencoded")] in
    modify_self (set_connectionOptions (VObj [])) ;;
    if truthy (or_else (get_prop safeOpts "host") (get_prop safeOpts "port")) then
      let localOptions :=
        set_prop "host" (or_else (get_prop safeOpts "host") (VStr "127.0.0.1")) localOptions in
      let localOptions :=
        set_prop "port" (or_else (get_prop safeOpts "port") (VNum 3001)) localOptions in
      set_connectionOption "host" (prop localOptions "host") ;;
      set_connectionOption "port" (prop localOptions "port") ;;
      let localOptions := set_prop "callback" (VFun LoginCallback) localOptions in
      connectionOptions <- gets (fun w => connectionOptions (self w)) ;;
      req <- getPostReq localOptions connectionOptions ;;
      on_error req LoginRequestFailure ;;
      write req (VStr data) ;;
      end_ req
    else
      let localOptions := set_prop "socketPath" (VStr unixSockName) localOptions in
      set_connectionOption "socketPath" (prop localOptions "socketPath") ;;
      nextTick LoginTick.

(** [logOut(options)] *)
Definition logOut (options : value) : M unit :=
  let safeOpts := or_else options (VObj []) in
  sid <- gets (fun w => sid (self w)) ;;
  let localOptions : obj :=
    [("path", or_else (get_prop safeOpts "path") (VStr "/logout"));
     ("cookie", sid)] in
  let localOptions := set_prop "callback" (VFun LogoutCallback) localOptions in
  connectionOptions <- gets (fun w => connectionOptions (self w)) ;;
  req <- getGetReq localOptions connectionOptions ;;
  on_error req LogoutRequestFailure ;;
  end_ req.

(** [getJSON(optionsOrPathArg, callbackArg)]; [arguments] is the list of the
    arguments of the call. *)
Definition getJSON (arguments : list value) : M nat :=
  options <- lift (parseOptions arguments ["path"] ["callback"]) ;;
  apiPrefix <- gets (fun w => apiPrefix (self w)) ;;
  sid <- gets (fun w => sid (self w)) ;;
  let localOptions : obj :=
    [("path", VStr (apiPrefix ++ to_string (prop options "path")));
     ("cookie", sid);
     ("callback", or_else (prop options "callback") (VFun PrintResponse))] in
  connectionOptions <- gets (fun w => connectionOptions (self w)) ;;
  req <- getGetReq localOptions connectionOptions ;;
  installErrorProxy req ;;
  end_ req ;;
  ret req.

(** [putJSON(optionsOrPathArg, callbackArg)] *)
Definition putJSON (arguments : list value) : M nat :=
  options <- lift (parseOptions arguments ["path"; "body"] ["callback"]) ;;
  jsonString <- lift (toJsonString (prop options "body")) ;;
  apiPrefix <- gets (fun w => apiPrefix (self w)) ;;
  contentLength <- lift (member jsonString "length") ;;
  sid <- gets (fun w => sid (self w)) ;;
  let localOptions : obj :=
    [("path", VStr (apiPrefix ++ to_string (prop options "path")));
     ("contentLength", contentLength);
     ("contentType", VStr "application/json");
     ("cookie", sid);
     ("callback", or_else (prop options "callback") (VFun PrintResponse))] in
  connectionOptions <- gets (fun w => connectionOptions (self w)) ;;
  req <- getPutReq localOptions connectionOptions ;;
  installErrorProxy req ;;
  write req jsonString ;;
  end_ req ;;
  ret req.

(** [postJSON(optionsOrPathArg, callbackArg)] *)
Definition postJSON (arguments : list value) : M nat :=
  options <- lift (parseOptions arguments ["path"; "body"] ["callback"]) ;;
  jsonString <- lift (toJsonString (prop options "body")) ;;
  apiPrefix <- gets (fun w => apiPrefix (self w)) ;;
  contentLength <- lift (member jsonString "length") ;;
  sid <- gets (fun w => sid (self w)) ;;
  let localOptions : obj :=
    [("path", VStr (apiPrefix ++ to_string (prop options "path")));
     ("contentLength", contentLength);
     ("contentType", VStr "application/json");
     ("cookie", sid);
     ("callback", or_else (prop options "callback") (VFun PrintResponse))] in
  connectionOptions <- gets (fun w => connectionOptions (self w)) ;;
  req <- getPostReq localOptions connectionOptions ;;
  installErrorProxy req ;;
  write req jsonString ;;
  end_ req ;;
  ret req.

(** [deleteJSON(optionsOrPathArg, callbackArg)] *)
Definition deleteJSON (arguments : list value) : M nat :=
  options <- lift (parseOptions arguments ["path"] ["callback"]) ;;
  apiPrefix <- gets (fun w => apiPrefix (self w)) ;;
  sid <- gets (fun w => sid (self w)) ;;
  let localOptions : obj :=
    [("path", VStr (apiPrefix ++ to_string (prop options "path")));
     ("cookie", sid);
     ("callback", or_else (prop options "callback") (VFun PrintResponse))] in
  connectionOptions <- gets (fun w => connectionOptions (self w)) ;;
  req <- getDeleteReq localOptions connectionOptions ;;
  installErrorProxy req ;;
  end_ req ;;
  ret req.

(** [new Client()]: the constructor sets [loggedIn] and [apiPrefix] and
    leaves [sid] and [connectionOptions] undefined. *)
Definition newClient : Client :=
  mkClient false VUndefined "/lrs/api/v1.0" VUndefined 0.

Definition newWorld : World := mkWorld newClient [] [] [] [] [].

(** *** What happens later: responses, errors, ticks *)

(** The text a response handler has gathered from the 'data' events when
    'end' arrives: [body += chunk] for every chunk. *)
Definition read_body (response : IncomingMessage) : string :=
  fold_left (fun body chunk => body ++ chunk) (chunks response) "".

Definition is_array (v : value) : bool :=
  match v with
  | VArr _ => true
  | _ => false
  end.

(** The response callback of [logIn], run up to the end of [checkBody]. *)
Definition loginCallback (loginResponse : IncomingMessage) : M unit :=
  let body := read_body loginResponse in
  if negb (indexOf body "login" =? -1)%Z then
    emit (Ev_loginFailure loginResponse body)
  else
    let setCookieHdr := prop (headers loginResponse) "set-cookie" in
    let setCookieHdr :=
      if is_array setCookieHdr then get_prop setCookieHdr "0" else setCookieHdr in
    parts <- lift (split_method setCookieHdr "; ") ;;
    modify_self (set_sid (match parts with
                          | p :: _ => VStr p
                          | [] => VUndefined
                          end)) ;;
    modify_self (set_loggedIn true) ;;
    emit Ev_login.

(** The response callback of [logOut]. *)
Definition logoutCallback (logoutResponse : IncomingMessage) : M unit :=
  modify_self (set_loggedIn false) ;;
  emit Ev_logout.

(** [printResponse(response)], run up to the end of its 'end' listener. *)
Definition printResponse (response : IncomingMessage) : M unit :=
  let body := read_body response in
  console_log ("Management REST xaction STATUS: " ++ number_to_string (statusCode response)) ;;
  if negb (body =? "")
  then console_log ("Management REST xaction BODY: " ++ body)
  else ret tt.

Definition call_callback (f : fn) (response : IncomingMessage) : M unit :=
  match f with
  | PrintResponse => printResponse response
  | LoginCallback => loginCallback response
  | LogoutCallback => logoutCallback response
  | UserFn _ _ => record_call (CalledWithResponse f response)
  end.

(** The transport delivers [response] for request [req]: the callback is
    called, then the chunks and the end of the body arrive. *)
Definition respond (req : nat) (response : IncomingMessage) : M unit :=
  rs <- gets requests ;;
  match nth_error rs req with
  | Some r =>
      match req_callback r with
      | VFun f => call_callback f response
      | _ => ret tt
      end
  | None => ret tt
  end.

(** One listener of a request's 'error' event. *)
Definition run_errorListener (req : nat) (listener : errorListener) (error : value)
  : M unit :=
  match listener with
  | ErrorProxy =>
      rs <- gets requests ;;
      let listeners :=
        match nth_error rs req with
        | Some r => req_errorListeners r
        | None => []
        end in
      if (1 <? length listeners)%nat then ret tt
      else emit (Ev_error error)
  | LoginRequestFailure => emit (Ev_loginRequestFailure error)
  | LogoutRequestFailure => emit (Ev_logoutRequestFailure error)
  | UserListener f => record_call (CalledWithError f error)
  end.

Fixpoint run_errorListeners (req : nat) (listeners : list errorListener) (error : value)
  : M unit :=
  match listeners with
  | [] => ret tt
  | l :: rest => run_errorListener req l error ;; run_errorListeners req rest error
  end.

(** The transport emits 'error' on request [req]: its listeners run in the
    order of registration; without any listener the error is thrown. *)
Definition request_error (req : nat) (error : value) : M unit :=
  rs <- gets requests ;;
  match nth_error rs req with
  | Some r =>
      match req_errorListeners r with
      | [] => throw (UnhandledError error)
      | ls => run_errorListeners req ls error
      end
  | None => ret tt
  end.

(** The callback [logIn] queued with [process.nextTick]. *)
Definition run_tick (t : tick) : M unit :=
  match t with
  | LoginTick => modify_self (set_loggedIn true) ;; emit Ev_login
  end.

(** The next tick: the first queued callback runs. *)
Definition next_tick : M unit :=
  q <- gets nextTickQueue ;;
  match q with
  | [] => ret tt
  | t :: rest => modify (set_nextTickQueue rest) ;; run_tick t
  end.

(** What the caller may do between calls: listen to the client's 'error'
    event, and to the 'error' event of a request it was handed. *)
Definition client_on_error : M unit :=
  modify_self (fun c => set_clientErrorListeners (S (clientErrorListeners c)) c).

Definition request_on_error (req : nat) (f : fn) : M unit :=
  on_error req (UserListener f).

(** ** Notions used by the statements *)

(** [needle] occurs in [s]. *)
Definition contains (s needle : string) : Prop :=
  exists pre post, s = pre ++ needle ++ post.

(** [s] without its first [n] characters. *)
Fixpoint slice_from (n : nat) (s : string) : string :=
  match n, s with
  | O, _ => s
  | S n', String _ s' => slice_from n' s'
  | S _, "" => ""
  end.

(** [t] is [s] cut at the first occurrence of [sep]: what follows [t] in [s]
    is nothing or starts with [sep], and [sep] occurs at no earlier place. *)
Definition truncated_at_first (sep s t : string) : Prop :=
  exists rest,
    s = t ++ rest /\
    (rest = "" \/ prefix sep rest = true) /\
    forall i, (i < String.length t)%nat -> prefix sep (slice_from i s) = false.

(** The payload of the 'error' event [logIn] emits for a username without a
    password, or a password without a username. *)
Definition missing_credential_error (safeOpts : value) : value :=
  VObj [("message",
         VStr (if truthy (get_prop safeOpts "username")
               then "Client login options contained the username  but no password."
               else "Client login options contained the password  but no username."))].

(** The connection targets [logIn] stores. *)
Inductive is_target : obj -> Prop :=
| target_host_port (host port : value) : is_target [("host", host); ("port", port)]
| target_socket (path : string) : is_target [("socketPath", VStr path)].

(** The first value of the response's Set-Cookie header, which the transport
    presents as a string or as an array of strings. *)
Definition first_set_cookie (response : IncomingMessage) : option string :=
  match prop (headers response) "set-cookie" with
  | VStr s => Some s
  | VArr (VStr s :: _) => Some s
  | _ => None
  end.

(** The headers of a built request: the builder's own, then the cookie when
    the options carry one. *)
Definition with_cookie (options : obj) (own : obj) : obj :=
  if truthy (prop options "cookie")
  then (own ++ [("Cookie", prop options "cookie")])%list
  else own.

(** The value the builders give the Host header. *)
Definition host_header (options : obj) : value :=
  VStr (to_string (prop options "host") ++ ":" ++ to_string (prop options "port")).

(** The request a builder hands to the transport, for the object literal
    [literal] (without its headers), the headers [own] of that literal, the
    caller's [options] and the connection target [target]. *)
Definition built_request (literal own options target : obj) : ClientRequest :=
  mkRequest
    (literal ++ [("headers", VObj (with_cookie options own))] ++ target)%list
    (prop options "callback")
    (with_cookie options own ++ [("Host", host_header options)])%list
    [] [] false.

(** A callback the transport accepts: none, or a function. *)
Definition callback_ok (v : value) : Prop :=
  truthy v && negb (is_function v) = false.

(** The form body of the login request, and the target it is sent to. *)
Definition login_data (safeOpts : value) : string :=
  "username=" ++ to_string (or_else (get_prop safeOpts "username") (VStr "testlab"))
  ++ "&password=" ++ to_string (or_else (get_prop safeOpts "password") (VStr "changeme")).

Definition login_host (safeOpts : value) : value :=
  or_else (get_prop safeOpts "host") (VStr "127.0.0.1").

Definition login_port (safeOpts : value) : value :=
  or_else (get_prop safeOpts "port") (VNum 3001).

(** The options [logIn] hands to [getPostReq]. *)
Definition login_options (safeOpts : value) : obj :=
  [("path", or_else (get_prop safeOpts "path") (VStr "/login"));
   ("contentLength", VNum (Z.of_nat (String.length (login_data safeOpts))));
   ("contentType", VStr "application/x-www-form-urlencoded");
   ("host", login_host safeOpts);
   ("port", login_port safeOpts);
   ("callback", VFun LoginCallback)].

(** The login request as [logIn] leaves it. *)
Definition login_request (safeOpts : value) : ClientRequest :=
  let options := login_options safeOpts in
  let r :=
    built_request
      [("path", prop options "path"); ("method", VStr "POST"); ("agent", VBool false)]
      [("Accept", VStr "*/*");
       ("Content-Length", prop options "contentLength");
       ("Content-Type", prop options "contentType")]
      options
      [("host", login_host safeOpts); ("port", login_port safeOpts)] in
  mkRequest (req_options r) (req_callback r) (req_headers r)
    [LoginRequestFailure] [login_data safeOpts] true.

(** Request [req] is new in [w1], where it is the only new request, and has
    the error listeners [listeners]. *)
Definition appended (w w1 : World) (req : nat) (listeners : list errorListener) : Prop :=
  req = length (requests w) /\
  exists r, w1 = set_requests (requests w ++ [r])%list w /\
            req_errorListeners r = listeners.

(** The caller registers the functions [fs], in this order, as listeners of
    the 'error' event of request [req]. *)
Fixpoint caller_listens (req : nat) (fs : list fn) : M unit :=
  match fs with
  | [] => ret tt
  | f :: rest => request_on_error req f ;; caller_listens req rest
  end.

(** The listeners of the 'error' event of request [req]. *)
Definition listeners_of (req : nat) (w : World) : list errorListener :=
  match nth_error (requests w) req with
  | Some r => req_errorListeners r
  | None => []
  end.

(** [fill names values o]: the properties [names] of [o] are given, in order,
    the values [values], as far as there are names and values. *)
Fixpoint fill (names : list string) (values : list value) (o : obj) : obj :=
  match names, values with
  | k :: names', v :: values' => fill names' values' (set_prop k v o)
  | _, _ => o
  end.

(** The first of the keys [keys] whose value in [v] is falsy. *)
Definition first_falsy (v : value) (keys : list string) : option string :=
  find (fun k => negb (truthy (get_prop v k))) keys.

(** The first of the keys [keys] that [o] does not have. *)
Definition first_absent (o : obj) (keys : list string) : option string :=
  find (fun k => match lookup k o with
                 | Some _ => false
                 | None => true
                 end) keys.

(** ** Sample runs *)

(** Login options naming a host and a port. *)
Definition remote : value := VObj [("host", VStr "10.0.0.5"); ("port", VNum 8080)].

(** A new client whose caller listens to its 'error' event. *)
Definition listening : World := snd (client_on_error newWorld).

(** A new client after [logIn(remote)]: the login request is on its way. *)
Definition logged_in : World := snd (logIn remote newWorld).

(** A response that shows the login page again. *)
Definition login_page : IncomingMessage :=
  mkResponse 200 [("content-type", VStr "text/html")] ["<html>login</html>"].

(** A response that sets a session cookie. *)
Definition welcome : IncomingMessage :=
  mkResponse 200 [("set-cookie", VArr [VStr "sid=abc123; Path=/"])] ["OK"].

(** The client after the login request was answered with [welcome]. *)
Definition with_session : World :=
  snd (respond 0 welcome logged_in).

(** The login page again, arriving in two chunks. *)
Definition login_page_in_chunks : IncomingMessage :=
  mkResponse 200 [("content-type", VStr "text/html")] ["<html>log"; "in</html>"].

(** A response that accepts the login but sets no cookie. *)
Definition no_cookie : IncomingMessage :=
  mkResponse 200 [("content-type", VStr "text/plain")] ["O"; "K"].

(** Two more responses, of which the client reads nothing. *)
Definition server_error : IncomingMessage := mkResponse 500 [] ["login"].

Definition not_found : IncomingMessage := mkResponse 404 [] [].

(** ** Notions used by the further properties *)

(** The request a JSON verb leaves with the transport: [method] and [agent]
    tell the builder, [c] is the client at the time of the call, [options]
    the normalised options of the call, [entity] the body text of a PUT or
    POST, and [target] the connection target. *)
Definition verb_options (c : Client) (options : obj) (entity : option string) : obj :=
  ([("path", VStr (apiPrefix c ++ to_string (prop options "path")))] ++
   match entity with
   | Some s => [("contentLength", VNum (Z.of_nat (String.length s)));
                ("contentType", VStr "application/json")]
   | None => []
   end ++
   [("cookie", sid c);
    ("callback", or_else (prop options "callback") (VFun PrintResponse))])%list.

Definition verb_request (method : string) (agent : bool) (c : Client) (options : obj)
  (entity : option string) (target : obj) : ClientRequest :=
  let localOptions := verb_options c options entity in
  let r :=
    built_request
      ([("path", prop localOptions "path"); ("method", VStr method)] ++
       (if agent then [("agent", VBool false)] else []))%list
      ([("Accept", VStr "*/*")] ++
       match entity with
       | Some _ => [("Content-Length", prop localOptions "contentLength");
                    ("Content-Type", prop localOptions "contentType")]
       | None => []
       end)%list
      localOptions target in
  mkRequest (req_options r) (req_callback r) (req_headers r)
    [ErrorProxy]
    match entity with
    | Some s => [s]
    | None => []
    end
    true.

(** The two outcomes of building a request from [options] in the world [w]:
    an exception that leaves the world as it was, or one new request, which
    is returned, with [options.callback] as callback, the Host header the
    builders compute, no error listener, no body, not ended. *)
Definition built (options : obj) (w : World) (result : outcome nat * World) : Prop :=
  (exists e, result = (Throw e, w)) \/
  (exists r,
     result = (Ok (length (requests w)), set_requests (requests w ++ [r])%list w) /\
     req_callback r = prop options "callback" /\
     lookup "Host" (req_headers r) = Some (host_header options) /\
     req_errorListeners r = [] /\
     req_written r = [] /\
     req_ended r = false).

(** The two outcomes of a call that sends a request: an exception that
    leaves the world as it was, or the result [a] and one new request, ended,
    with the error listeners [listeners], the callback [callback] when one
    is named, and the Host header "undefined:undefined". *)
Definition sent {A : Type} (listeners : list errorListener) (callback : option value)
  (a : A) (w : World) (result : outcome A * World) : Prop :=
  (exists e, result = (Throw e, w)) \/
  (exists r,
     result = (Ok a, set_requests (requests w ++ [r])%list w) /\
     lookup "Host" (req_headers r) = Some (VStr "undefined:undefined") /\
     req_errorListeners r = listeners /\
     (forall f, callback = Some f -> req_callback r = f) /\
     req_ended r = true).

(** The worlds that arise from [new Client()] through calls of the client's
    methods by the caller, registrations of listeners by the caller, and
    responses, errors and ticks delivered by the host, in any order and with
    any arguments. *)
Inductive reachable : World -> Prop :=
| reach_new : reachable newWorld
| reach_logIn (w : World) (options : value) :
    reachable w -> reachable (snd (logIn options w))
| reach_logOut (w : World) (options : value) :
    reachable w -> reachable (snd (logOut options w))
| reach_getJSON (w : World) (arguments : list value) :
    reachable w -> reachable (snd (getJSON arguments w))
| reach_putJSON (w : World) (arguments : list value) :
    reachable w -> reachable (snd (putJSON arguments w))
| reach_postJSON (w : World) (arguments : list value) :
    reachable w -> reachable (snd (postJSON arguments w))
| reach_deleteJSON (w : World) (arguments : list value) :
    reachable w -> reachable (snd (deleteJSON arguments w))
| reach_client_on_error (w : World) :
    reachable w -> reachable (snd (client_on_error w))
| reach_request_on_error (w : World) (req : nat) (f : fn) :
    reachable w -> reachable (snd (request_on_error req f w))
| reach_respond (w : World) (req : nat) (response : IncomingMessage) :
    reachable w -> reachable (snd (respond req response w))
| reach_request_error (w : World) (req : nat) (error : value) :
    reachable w -> reachable (snd (request_error req error w))
| reach_next_tick (w : World) :
    reachable w -> reachable (snd (next_tick w)).

(** A stored connection target: a truthy host and a truthy port, or the path
    of the local socket. *)
Definition stored_target (v : value) : Prop :=
  (exists host port,
     v = VObj [("host", host); ("port", port)] /\
     truthy host = true /\ truthy port = true) \/
  v = VObj [("socketPath", VStr unixSockName)].

(** What holds of the client in every reachable world. *)
Definition session_ok (w : World) : Prop :=
  apiPrefix (self w) = "/lrs/api/v1.0" /\
  (connectionOptions (self w) = VUndefined \/ stored_target (connectionOptions (self w))) /\
  (sid (self w) = VUndefined \/ exists s, sid (self w) = VStr s) /\
  (loggedIn (self w) = true -> In Ev_login (emitted w)).

(** What holds of every request handed to the transport: it is ended, and
    its error listeners are one listener of the module followed by those of
    the caller. *)
Definition request_ok (r : ClientRequest) : Prop :=
  req_ended r = true /\
  exists l fs,
    req_errorListeners r = l :: map UserListener fs /\
    In l [ErrorProxy; LoginRequestFailure; LogoutRequestFailure].

Definition world_ok (w : World) : Prop :=
  session_ok w /\ Forall request_ok (requests w).

(** [m] keeps the property [I] of worlds, whether it returns or throws. *)
Definition preserves {A : Type} (I : World -> Prop) (m : M A) : Prop :=
  forall w, I w -> I (snd (m w)).

(** * Properties *)

(** ** The runtime fragment *)

Example stringify_a1 :
  JSON_stringify (VObj [("a", VNum 1)]) = Ok (VStr ("{" ++ dq ++ "a" ++ dq ++ ":1}")).
Proof. reflexivity. Qed.

Example split_cookie :
  split "sid=abc123; Path=/" "; " = ["sid=abc123"; "Path=/"].
Proof. reflexivity. Qed.

Example indexOf_login : indexOf "<html>login</html>" "login" = 6%Z.
Proof. reflexivity. Qed.

Lemma append_nil_r (s : string) : s ++ "" = s.
Proof. induction s as [|c s IH]; simpl; [reflexivity | now rewrite IH]. Qed.

Lemma append_assoc (a b c : string) : (a ++ b) ++ c = a ++ (b ++ c).
Proof. induction a as [|x a IH]; simpl; [reflexivity | now rewrite IH]. Qed.

Lemma prefix_iff (n s : string) :
  prefix n s = true <-> exists post, s = n ++ post.
Proof.
  revert s; induction n as [|a n IH]; intros s; simpl.
  - destruct s; split; intros; eauto.
  - destruct s as [|b s].
    + split; [discriminate | intros [post H]; discriminate].
    + simpl. destruct (ascii_dec a b) as [->|ne].
      * rewrite IH. split; intros [post H]; exists post.
        -- now rewrite H.
        -- now inversion H.
      * split; [discriminate | intros [post H]; inversion H; congruence].
Qed.

Lemma contains_step (c : ascii) (s needle : string) :
  prefix needle (String c s) = false ->
  (contains (String c s) needle <-> contains s needle).
Proof.
  intros Hp. split.
  - intros [pre [post H]]. destruct pre as [|x pre].
    + simpl in H. assert (prefix needle (String c s) = true) as Ht
        by (apply prefix_iff; eauto).
      congruence.
    + simpl in H. inversion H. now exists pre, post.
  - intros [pre [post H]]. exists (String c pre), post. simpl. now rewrite H.
Qed.

Lemma indexOf_from_absent (s needle : string) (i : Z) :
  (0 <= i)%Z ->
  (indexOf_from s needle i = (-1)%Z <-> ~ contains s needle).
Proof.
  revert i; induction s as [|c s IH]; intros i Hi; cbn [indexOf_from].
  - destruct (prefix needle "") eqn:Hp.
    + split; [intros H; exfalso; lia |]. intros Hn. exfalso. apply Hn.
      apply prefix_iff in Hp as [post Hp]. now exists "", post.
    + split; [| reflexivity]. intros _ [pre [post H]].
      destruct pre; [| discriminate]. simpl in H.
      assert (prefix needle "" = true) by (apply prefix_iff; eauto).
      congruence.
  - destruct (prefix needle (String c s)) eqn:Hp.
    + split; [intros H; exfalso; lia |]. intros Hn. exfalso. apply Hn.
      apply prefix_iff in Hp as [post Hp]. now exists "", post.
    + rewrite IH by lia. now rewrite (contains_step c s needle Hp).
Qed.

Lemma indexOf_from_present (s needle : string) (i : Z) :
  indexOf_from s needle i <> (-1)%Z -> contains s needle.
Proof.
  revert i; induction s as [|c s IH]; intros i; cbn [indexOf_from].
  - destruct (prefix needle "") eqn:Hp; [| congruence].
    intros _. apply prefix_iff in Hp as [post Hp]. now exists "", post.
  - destruct (prefix needle (String c s)) eqn:Hp.
    + intros _. apply prefix_iff in Hp as [post Hp]. now exists "", post.
    + intros H. apply (contains_step c s needle Hp). eauto.
Qed.

(** [indexOf] finds exactly the substrings. *)
Lemma indexOf_contains (s needle : string) :
  indexOf s needle <> (-1)%Z <-> contains s needle.
Proof.
  unfold indexOf. split.
  - apply indexOf_from_present.
  - intros Hc Heq. apply indexOf_from_absent in Heq; [contradiction | lia].
Qed.

Lemma split_from_head (sep s cur : string) :
  exists t pieces,
    split_from sep s 0 cur = (cur ++ t) :: pieces /\ truncated_at_first sep s t.
Proof.
  revert cur; induction s as [|c s IH]; intros cur; cbn [split_from].
  - exists "", []. split; [now rewrite append_nil_r |].
    exists "". repeat split; auto. simpl. intros i Hi. lia.
  - destruct (prefix sep (String c s)) eqn:Hp.
    + exists "". eexists. split; [now rewrite append_nil_r |].
      exists (String c s). repeat split; auto. simpl. intros i Hi. lia.
    + destruct (IH (cur ++ String c "")) as [t [pieces [H1 [rest [H2 [H3 H4]]]]]].
      exists (String c t), pieces. split.
      * rewrite H1, append_assoc. reflexivity.
      * exists rest. repeat split; auto.
        -- simpl. now rewrite <- H2.
        -- intros [|i] Hi; simpl in *; [assumption | apply H4; lia].
Qed.

(** The first piece of [split] is the string cut at the first separator. *)
Lemma split_first (s sep : string) :
  sep <> "" ->
  exists t pieces, split s sep = t :: pieces /\ truncated_at_first sep s t.
Proof.
  intros Hsep. unfold split.
  destruct (sep =? "") eqn:E; [apply String.eqb_eq in E; contradiction |].
  destruct (split_from_head sep s "") as [t [pieces [H1 H2]]].
  exists t, pieces. now split.
Qed.

(** ** Computations *)

Ltac msimpl :=
  unfold bind, ret, lift, gets, modify, modify_self, throw; simpl.

Lemma emit_plain (e : event) (w : World) :
  event_name e <> "error" ->
  emit e w = (Ok tt, set_emitted_snoc e w).
Proof. destruct e; intros H; try reflexivity. now elim H. Qed.

Lemma emit_error (error : value) (w : World) :
  emit (Ev_error error) w =
  (if (clientErrorListeners (self w) =? 0)%nat
   then Throw (UnhandledError error) else Ok tt,
   set_emitted_snoc (Ev_error error) w).
Proof.
  unfold emit. msimpl.
  now destruct (clientErrorListeners (self w) =? 0)%nat.
Qed.

Lemma alter_nth_snoc {A : Type} (f : A -> A) (l : list A) (x : A) :
  alter_nth (length l) f (l ++ [x])%list = (l ++ [f x])%list.
Proof. induction l as [|y l IH]; simpl; [reflexivity | now rewrite IH]. Qed.

Lemma nth_error_snoc {A : Type} (l : list A) (x : A) :
  nth_error (l ++ [x])%list (length l) = Some x.
Proof. induction l as [|y l IH]; simpl; [reflexivity | exact IH]. Qed.

(** ** The login response *)

Lemma loginCallback_failure (response : IncomingMessage) (w : World) :
  contains (read_body response) "login" ->
  loginCallback response w =
  (Ok tt, set_emitted_snoc (Ev_loginFailure response (read_body response)) w).
Proof.
  intros Hc. unfold loginCallback.
  destruct (indexOf (read_body response) "login" =? -1)%Z eqn:E.
  - apply Z.eqb_eq in E. apply indexOf_contains in Hc. contradiction.
  - reflexivity.
Qed.

Lemma loginCallback_success (response : IncomingMessage) (hdr : string) (w : World) :
  ~ contains (read_body response) "login" ->
  first_set_cookie response = Some hdr ->
  exists t,
    truncated_at_first "; " hdr t /\
    loginCallback response w =
    (Ok tt,
     set_emitted_snoc Ev_login
       (set_self (set_loggedIn true (set_sid (VStr t) (self w))) w)).
Proof.
  intros Hc Hh. unfold loginCallback.
  destruct (indexOf (read_body response) "login" =? -1)%Z eqn:E.
  2:{ apply Z.eqb_neq in E. apply indexOf_contains in E. contradiction. }
  destruct (split_first hdr "; ") as [t [pieces [Hs Ht]]]; [discriminate |].
  exists t. split; [exact Ht |].
  unfold first_set_cookie in Hh.
  assert ((if is_array (prop (headers response) "set-cookie")
           then get_prop (prop (headers response) "set-cookie") "0"
           else prop (headers response) "set-cookie") = VStr hdr) as ->.
  { destruct (prop (headers response) "set-cookie") as [| | | | s | l | |];
      try discriminate.
    - now inversion Hh.
    - destruct l as [|[| | | | s | | |] l]; try discriminate.
      now inversion Hh. }
  cbn [negb split_method]. unfold bind at 1. unfold lift at 1. rewrite Hs.
  reflexivity.
Qed.

(** ** Request builders *)

Lemma testRequiredOptions_truthy (o : obj) (ks : list string) :
  Forall (fun k => truthy (prop o k) = true) ks ->
  testRequiredOptions (VObj o) ks = Ok tt.
Proof.
  induction 1 as [|k ks Hk _ IH]; [reflexivity |].
  cbn [testRequiredOptions member nullish].
  change (get_prop (VObj o) k) with (prop o k). now rewrite Hk.
Qed.

Ltac builder_spec options Ht Hcb :=
  unfold finishReq, built_request, with_cookie, host_header, http_request,
    callback_ok in *;
  revert Hcb;
  generalize (prop options "path"), (prop options "callback"),
    (prop options "cookie"), (prop options "host"), (prop options "port"),
    (prop options "contentLength"), (prop options "contentType");
  intros path cb cookie host port len type Hcb;
  destruct Ht; destruct (truthy cookie) eqn:Hc;
  msimpl; rewrite Hcb; msimpl; rewrite !alter_nth_snoc; cbn;
  unfold set_requests; cbn; reflexivity.

Lemma getGetReq_spec (options target : obj) (w : World) :
  is_target target ->
  truthy (prop options "path") = true ->
  callback_ok (prop options "callback") ->
  getGetReq options (VObj target) w =
  (Ok (length (requests w)),
   set_requests
     (requests w ++
      [built_request
         [("path", prop options "path"); ("method", VStr "GET"); ("agent", VBool false)]
         [("Accept", VStr "*/*")] options target])%list w).
Proof.
  intros Ht Hp Hcb. unfold getGetReq.
  rewrite testRequiredOptions_truthy by (repeat constructor; assumption).
  clear Hp. builder_spec options Ht Hcb.
Qed.


Lemma getPostReq_spec (options target : obj) (w : World) :
  is_target target ->
  truthy (prop options "path") = true ->
  truthy (prop options "contentLength") = true ->
  truthy (prop options "contentType") = true ->
  callback_ok (prop options "callback") ->
  getPostReq options (VObj target) w =
  (Ok (length (requests w)),
   set_requests
     (requests w ++
      [built_request
         [("path", prop options "path"); ("method", VStr "POST"); ("agent", VBool false)]
         [("Accept", VStr "*/*");
          ("Content-Length", prop options "contentLength");
          ("Content-Type", prop options "contentType")] options target])%list w).
Proof.
  intros Ht Hp Hl Hy Hcb. unfold getPostReq.
  rewrite testRequiredOptions_truthy by (repeat constructor; assumption).
  clear Hp Hl Hy. builder_spec options Ht Hcb.
Qed.

Lemma getPutReq_spec (options target : obj) (w : World) :
  is_target target ->
  truthy (prop options "path") = true ->
  truthy (prop options "contentLength") = true ->
  truthy (prop options "contentType") = true ->
  callback_ok (prop options "callback") ->
  getPutReq options (VObj target) w =
  (Ok (length (requests w)),
   set_requests
     (requests w ++
      [built_request
         [("path", prop options "path"); ("method", VStr "PUT")]
         [("Accept", VStr "*/*");
          ("Content-Length", prop options "contentLength");
          ("Content-Type", prop options "contentType")] options target])%list w).
Proof.
  intros Ht Hp Hl Hy Hcb. unfold getPutReq.
  rewrite testRequiredOptions_truthy by (repeat constructor; assumption).
  clear Hp Hl Hy. builder_spec options Ht Hcb.
Qed.

Ltac world :=
  unfold set_requests, set_self, set_emitted_snoc, set_emitted, set_nextTickQueue,
    set_console, set_userCalls, set_connectionOptions, set_loggedIn, set_sid,
    set_clientErrorListeners; cbn.

Ltac prims :=
  unfold end_, write, on_error, installErrorProxy, removeHeader, setHeader,
    nextTick, console_log, record_call, update_request.

Ltac run :=
  repeat (progress (prims; msimpl; world; rewrite ?alter_nth_snoc)).

Arguments getGetReq : simpl never.
Arguments getPostReq : simpl never.
Arguments getPutReq : simpl never.
Arguments getDeleteReq : simpl never.

(** ** logIn *)

Lemma truthy_or_else_r (a b : value) : truthy b = true -> truthy (or_else a b) = true.
Proof. unfold or_else. now destruct (truthy a) eqn:E. Qed.

Lemma truthy_length_append (a b : string) :
  a <> "" -> truthy (VNum (Z.of_nat (String.length (a ++ b)))) = true.
Proof. destruct a; [congruence |]. reflexivity. Qed.

Lemma logIn_post (options : value) (w : World) :
  let safeOpts := or_else options (VObj []) in
  truthy (get_prop safeOpts "username") = truthy (get_prop safeOpts "password") ->
  truthy (or_else (get_prop safeOpts "host") (get_prop safeOpts "port")) = true ->
  logIn options w =
  (Ok tt,
   set_requests (requests w ++ [login_request safeOpts])%list
     (set_self
        (set_connectionOptions
           (VObj [("host", login_host safeOpts); ("port", login_port safeOpts)])
           (self w)) w)).
Proof.
  intros safeOpts Hup Hhp. unfold logIn. fold safeOpts.
  rewrite <- Hup, andb_negb_r, andb_comm, andb_negb_r, Hhp.
  fold (login_data safeOpts).
  assert (truthy (VNum (Z.of_nat (String.length (login_data safeOpts)))) = true) as Hlen
    by (now apply truthy_length_append).
  assert (truthy (or_else (get_prop safeOpts "path") (VStr "/login")) = true) as Hpath
    by (now apply truthy_or_else_r).
  unfold login_request, login_options, login_host, login_port.
  revert Hlen Hpath.
  generalize (login_data safeOpts), (or_else (get_prop safeOpts "path") (VStr "/login")),
    (or_else (get_prop safeOpts "host") (VStr "127.0.0.1")),
    (or_else (get_prop safeOpts "port") (VNum 3001)).
  intros data path host port Hlen Hpath.
  msimpl. unfold set_connectionOption. msimpl.
  rewrite getPostReq_spec; try (constructor || assumption || reflexivity).
  run. unfold built_request, with_cookie, host_header. cbn. reflexivity.
Qed.

Lemma logIn_unix_socket (options : value) (w : World) :
  let safeOpts := or_else options (VObj []) in
  truthy (get_prop safeOpts "username") = truthy (get_prop safeOpts "password") ->
  truthy (or_else (get_prop safeOpts "host") (get_prop safeOpts "port")) = false ->
  logIn options w =
  (Ok tt,
   set_nextTickQueue (nextTickQueue w ++ [LoginTick])%list
     (set_self (set_connectionOptions (VObj [("socketPath", VStr unixSockName)]) (self w))
        w)).
Proof.
  intros safeOpts Hup Hhp. unfold logIn. fold safeOpts.
  rewrite <- Hup, andb_negb_r, andb_comm, andb_negb_r, Hhp.
  unfold set_connectionOption. run. reflexivity.
Qed.

Lemma logIn_invalid (options : value) (w : World) :
  let safeOpts := or_else options (VObj []) in
  truthy (get_prop safeOpts "username") <> truthy (get_prop safeOpts "password") ->
  logIn options w = emit (Ev_error (missing_credential_error safeOpts)) w.
Proof.
  intros safeOpts Hup. unfold logIn, missing_credential_error. fold safeOpts.
  destruct (truthy (get_prop safeOpts "username")),
    (truthy (get_prop safeOpts "password")); try congruence; reflexivity.
Qed.

Lemma run_tick_login (w : World) :
  run_tick LoginTick w =
  (Ok tt, set_emitted_snoc Ev_login (set_self (set_loggedIn true (self w)) w)).
Proof. reflexivity. Qed.

Arguments parseOptions : simpl never.
Arguments toJsonString : simpl never.

(** ** Properties of strings as objects *)

Lemma number_to_string_not_length (z : Z) : number_to_string z <> "length".
Proof.
  unfold number_to_string.
  destruct (Z.to_int z) as [d | d]; destruct d; discriminate.
Qed.

Lemma lookup_combine_fresh (k : string) (keys : list string) (vals : list value) :
  (forall k', In k' keys -> k' <> k) -> lookup k (combine keys vals) = None.
Proof.
  revert vals; induction keys as [|k' keys IH]; intros vals Hk; [reflexivity |].
  destruct vals as [|v vals]; [reflexivity |]. cbn [combine lookup].
  destruct (k' =? k) eqn:E.
  - apply String.eqb_eq in E. exfalso. apply (Hk k'); [now left | exact E].
  - apply IH. intros k'' Hin. apply Hk. now right.
Qed.

Lemma lookup_indexed_length (l : list value) : lookup "length" (indexed l) = None.
Proof.
  unfold indexed. apply lookup_combine_fresh.
  intros k Hin. apply in_map_iff in Hin as [i [<- _]].
  apply number_to_string_not_length.
Qed.

Lemma member_string_length (s : string) :
  member (VStr s) "length" = Ok (VNum (Z.of_nat (String.length s))).
Proof.
  unfold member, get_prop. cbn [nullish own_props].
  now rewrite lookup_indexed_length.
Qed.

Lemma truthy_string_length (s : string) :
  s <> "" -> truthy (VNum (Z.of_nat (String.length s))) = true.
Proof. destruct s; [congruence | reflexivity]. Qed.

Lemma putJSON_positional (p : string) (b : value) (s : string) (target : obj) (w : World) :
  apiPrefix (self w) = "/lrs/api/v1.0" ->
  connectionOptions (self w) = VObj target ->
  is_target target ->
  toJsonString b = Ok (VStr s) ->
  s <> "" ->
  exists r,
    putJSON [VStr p; b] w =
    (Ok (length (requests w)), set_requests (requests w ++ [r])%list w) /\
    prop (req_options r) "path" = VStr ("/lrs/api/v1.0" ++ p) /\
    prop (req_options r) "method" = VStr "PUT" /\
    lookup "Cookie" (req_headers r) =
      (if truthy (sid (self w)) then Some (sid (self w)) else None) /\
    prop (req_headers r) "Content-Length" = VNum (Z.of_nat (String.length s)) /\
    prop (req_headers r) "Content-Type" = VStr "application/json" /\
    req_written r = [s] /\
    req_ended r = true.
Proof.
  intros Hpre Hco Ht Hs Hne. unfold putJSON.
  change (parseOptions [VStr p; b] ["path"; "body"] ["callback"])
    with (Ok [("path", VStr p); ("body", b)] : outcome obj).
  msimpl.
  change (prop [("path", VStr p); ("body", b)] "body") with b.
  change (prop [("path", VStr p); ("body", b)] "callback") with VUndefined.
  rewrite Hs, member_string_length, Hco, Hpre. cbn.
  rewrite getPutReq_spec;
    [ | assumption | reflexivity | now apply truthy_string_length | reflexivity
      | reflexivity ].
  unfold built_request, with_cookie, host_header.
  generalize ("/lrs/api/v1.0" ++ p).  intros path.
  pose proof (truthy_string_length s Hne) as Hlen. revert Hlen.
  generalize (Z.of_nat (String.length s)). intros n Hn.
  destruct Ht; destruct (truthy (sid (self w))) eqn:Hsid; run; cbn; rewrite ?Hsid;
    eexists; (split; [reflexivity |]); cbn; repeat split.
Qed.

(** ** Calls without a connection target *)

Lemma mergeOptions_undefined (o : obj) :
  mergeOptions (VObj o) VUndefined =
  Throw (TypeError "Cannot convert undefined or null to object").
Proof. reflexivity. Qed.

Lemma finishReq_undefined (options literal : obj) (w : World) :
  finishReq options VUndefined literal w =
  (Throw (TypeError "Cannot convert undefined or null to object"), w).
Proof. reflexivity. Qed.

Ltac builder_undefined :=
  match goal with
  | |- context [testRequiredOptions ?o ?ks] =>
      destruct (testRequiredOptions o ks) as [[] | e]; eexists; reflexivity
  end.

Lemma getGetReq_undefined (options : obj) (w : World) :
  exists e, getGetReq options VUndefined w = (Throw e, w).
Proof. unfold getGetReq. builder_undefined. Qed.

Lemma getDeleteReq_undefined (options : obj) (w : World) :
  exists e, getDeleteReq options VUndefined w = (Throw e, w).
Proof. unfold getDeleteReq. builder_undefined. Qed.

Lemma getPostReq_undefined (options : obj) (w : World) :
  exists e, getPostReq options VUndefined w = (Throw e, w).
Proof. unfold getPostReq. builder_undefined. Qed.

Lemma getPutReq_undefined (options : obj) (w : World) :
  exists e, getPutReq options VUndefined w = (Throw e, w).
Proof. unfold getPutReq. builder_undefined. Qed.

Ltac throws_with H :=
  match goal with
  | |- context [_ ?o VUndefined ?w] =>
      destruct (H o w) as [e He]; rewrite He; eexists; reflexivity
  end.

Lemma getJSON_undefined (arguments : list value) (w : World) :
  connectionOptions (self w) = VUndefined ->
  exists e, getJSON arguments w = (Throw e, w).
Proof.
  intros Hco. unfold getJSON.
  destruct (parseOptions arguments ["path"] ["callback"]) as [options | e];
    msimpl; [| eexists; reflexivity].
  rewrite Hco. throws_with getGetReq_undefined.
Qed.

Lemma deleteJSON_undefined (arguments : list value) (w : World) :
  connectionOptions (self w) = VUndefined ->
  exists e, deleteJSON arguments w = (Throw e, w).
Proof.
  intros Hco. unfold deleteJSON.
  destruct (parseOptions arguments ["path"] ["callback"]) as [options | e];
    msimpl; [| eexists; reflexivity].
  rewrite Hco. throws_with getDeleteReq_undefined.
Qed.

Lemma putJSON_undefined (arguments : list value) (w : World) :
  connectionOptions (self w) = VUndefined ->
  exists e, putJSON arguments w = (Throw e, w).
Proof.
  intros Hco. unfold putJSON.
  destruct (parseOptions arguments ["path"; "body"] ["callback"]) as [options | e];
    msimpl; [| eexists; reflexivity].
  destruct (toJsonString (prop options "body")) as [jsonString | e];
    [| eexists; reflexivity].
  destruct (member jsonString "length") as [len | e]; [| eexists; reflexivity].
  rewrite Hco. throws_with getPutReq_undefined.
Qed.

Lemma postJSON_undefined (arguments : list value) (w : World) :
  connectionOptions (self w) = VUndefined ->
  exists e, postJSON arguments w = (Throw e, w).
Proof.
  intros Hco. unfold postJSON.
  destruct (parseOptions arguments ["path"; "body"] ["callback"]) as [options | e];
    msimpl; [| eexists; reflexivity].
  destruct (toJsonString (prop options "body")) as [jsonString | e];
    [| eexists; reflexivity].
  destruct (member jsonString "length") as [len | e]; [| eexists; reflexivity].
  rewrite Hco. throws_with getPostReq_undefined.
Qed.

Lemma logOut_undefined (options : value) (w : World) :
  connectionOptions (self w) = VUndefined ->
  exists e, logOut options w = (Throw e, w).
Proof.
  intros Hco. unfold logOut. msimpl. rewrite Hco. throws_with getGetReq_undefined.
Qed.

(** ** What a successful call leaves behind *)

Lemma finishReq_appended (options : obj) (connectionOptions : value) (literal : obj)
  (w w1 : World) (req : nat) :
  finishReq options connectionOptions literal w = (Ok req, w1) ->
  appended w w1 req [].
Proof.
  unfold finishReq, appended. unfold bind at 1. unfold lift at 1.
  destruct (mergeOptions (VObj literal) connectionOptions) as [merged | e];
    [| discriminate].
  unfold bind at 1.
  assert (forall ro : obj,
             (req0 <- http_request ro (prop options "callback") ;;
              removeHeader req0 "Host" ;;
              setHeader req0 "Host"
                (VStr (to_string (prop options "host") ++ ":" ++
                       to_string (prop options "port"))) ;;
              ret req0) w = (Ok req, w1) ->
             req = length (requests w) /\
             exists r, w1 = set_requests (requests w ++ [r])%list w /\
                       req_errorListeners r = []) as Hrest.
  { intros ro. unfold http_request.
    destruct (truthy (prop options "callback") &&
              negb (is_function (prop options "callback"))); [discriminate |].
    run. intros H. inversion H. split; [reflexivity |].
    eexists. split; reflexivity. }
  destruct (truthy (prop options "cookie")).
  - unfold lift. destruct (set_headers_Cookie merged (prop options "cookie"));
      [apply Hrest | discriminate].
  - unfold ret at 1. apply Hrest.
Qed.

Ltac builder_appended :=
  unfold bind at 1; unfold lift at 1;
  match goal with
  | |- context [testRequiredOptions ?o ?ks] =>
      destruct (testRequiredOptions o ks) as [[] | e];
      [apply finishReq_appended | discriminate]
  end.

Lemma getGetReq_appended (options : obj) (co : value) (w w1 : World) (req : nat) :
  getGetReq options co w = (Ok req, w1) -> appended w w1 req [].
Proof. unfold getGetReq. builder_appended. Qed.

Lemma getDeleteReq_appended (options : obj) (co : value) (w w1 : World) (req : nat) :
  getDeleteReq options co w = (Ok req, w1) -> appended w w1 req [].
Proof. unfold getDeleteReq. builder_appended. Qed.

Lemma getPostReq_appended (options : obj) (co : value) (w w1 : World) (req : nat) :
  getPostReq options co w = (Ok req, w1) -> appended w w1 req [].
Proof. unfold getPostReq. builder_appended. Qed.

Lemma getPutReq_appended (options : obj) (co : value) (w w1 : World) (req : nat) :
  getPutReq options co w = (Ok req, w1) -> appended w w1 req [].
Proof. unfold getPutReq. builder_appended. Qed.

(** After the builder, a verb without a body installs the proxy and ends the
    request. *)
Lemma proxy_end_appended (w w0 w1 : World) (req req' : nat) :
  appended w w0 req [] ->
  (installErrorProxy req ;; end_ req ;; ret req) w0 = (Ok req', w1) ->
  appended w w1 req' [ErrorProxy].
Proof.
  intros [-> [r [-> Hr]]]. run. intros H. inversion H.
  split; [reflexivity |]. eexists. split; [reflexivity |]. cbn. now rewrite Hr.
Qed.

(** A verb with a body also writes it. *)
Lemma proxy_write_end_appended (w w0 w1 : World) (req req' : nat) (jsonString : value) :
  appended w w0 req [] ->
  (installErrorProxy req ;; write req jsonString ;; end_ req ;; ret req) w0 = (Ok req', w1) ->
  appended w w1 req' [ErrorProxy].
Proof.
  intros [-> [r [-> Hr]]]. destruct jsonString; run; try discriminate.
  intros H. inversion H.
  split; [reflexivity |]. eexists. split; [reflexivity |]. cbn. now rewrite Hr.
Qed.

Lemma getJSON_appended (arguments : list value) (w w1 : World) (req : nat) :
  getJSON arguments w = (Ok req, w1) -> appended w w1 req [ErrorProxy].
Proof.
  unfold getJSON. unfold bind at 1. unfold lift at 1.
  destruct (parseOptions arguments ["path"] ["callback"]) as [options | e];
    [| discriminate].
  do 3 (unfold bind at 1; unfold gets at 1). unfold bind at 1.
  match goal with
  | |- context [getGetReq ?o ?c ?w] =>
      destruct (getGetReq o c w) as [[req0 | e] w0] eqn:E; [| discriminate];
      apply getGetReq_appended in E
  end.
  now apply proxy_end_appended.
Qed.

Lemma deleteJSON_appended (arguments : list value) (w w1 : World) (req : nat) :
  deleteJSON arguments w = (Ok req, w1) -> appended w w1 req [ErrorProxy].
Proof.
  unfold deleteJSON. unfold bind at 1. unfold lift at 1.
  destruct (parseOptions arguments ["path"] ["callback"]) as [options | e];
    [| discriminate].
  do 3 (unfold bind at 1; unfold gets at 1). unfold bind at 1.
  match goal with
  | |- context [getDeleteReq ?o ?c ?w] =>
      destruct (getDeleteReq o c w) as [[req0 | e] w0] eqn:E; [| discriminate];
      apply getDeleteReq_appended in E
  end.
  now apply proxy_end_appended.
Qed.

Lemma putJSON_appended (arguments : list value) (w w1 : World) (req : nat) :
  putJSON arguments w = (Ok req, w1) -> appended w w1 req [ErrorProxy].
Proof.
  unfold putJSON. unfold bind at 1. unfold lift at 1.
  destruct (parseOptions arguments ["path"; "body"] ["callback"]) as [options | e];
    [| discriminate].
  unfold bind at 1. unfold lift at 1.
  destruct (toJsonString (prop options "body")) as [jsonString | e]; [| discriminate].
  unfold bind at 1; unfold gets at 1. unfold bind at 1. unfold lift at 1.
  destruct (member jsonString "length") as [len | e]; [| discriminate].
  do 2 (unfold bind at 1; unfold gets at 1). unfold bind at 1.
  match goal with
  | |- context [getPutReq ?o ?c ?w] =>
      destruct (getPutReq o c w) as [[req0 | e] w0] eqn:E; [| discriminate];
      apply getPutReq_appended in E
  end.
  now apply proxy_write_end_appended.
Qed.

Lemma postJSON_appended (arguments : list value) (w w1 : World) (req : nat) :
  postJSON arguments w = (Ok req, w1) -> appended w w1 req [ErrorProxy].
Proof.
  unfold postJSON. unfold bind at 1. unfold lift at 1.
  destruct (parseOptions arguments ["path"; "body"] ["callback"]) as [options | e];
    [| discriminate].
  unfold bind at 1. unfold lift at 1.
  destruct (toJsonString (prop options "body")) as [jsonString | e]; [| discriminate].
  unfold bind at 1; unfold gets at 1. unfold bind at 1. unfold lift at 1.
  destruct (member jsonString "length") as [len | e]; [| discriminate].
  do 2 (unfold bind at 1; unfold gets at 1). unfold bind at 1.
  match goal with
  | |- context [getPostReq ?o ?c ?w] =>
      destruct (getPostReq o c w) as [[req0 | e] w0] eqn:E; [| discriminate];
      apply getPostReq_appended in E
  end.
  now apply proxy_write_end_appended.
Qed.

(** ** The error proxy *)

Lemma caller_listens_snoc (fs : list fn) (rs : list ClientRequest) (r : ClientRequest)
  (w : World) :
  requests w = (rs ++ [r])%list ->
  exists r',
    caller_listens (length rs) fs w = (Ok tt, set_requests (rs ++ [r'])%list w) /\
    req_errorListeners r' = (req_errorListeners r ++ map UserListener fs)%list.
Proof.
  revert r w; induction fs as [|f fs IH]; intros r w Hw.
  - exists r. split; [| now rewrite app_nil_r]. cbn. unfold ret. rewrite <- Hw.
    now destruct w.
  - cbn [caller_listens]. unfold request_on_error, bind at 1. run. rewrite Hw.
    rewrite alter_nth_snoc.
    match goal with
    | |- context [caller_listens _ fs ?w'] =>
        destruct (IH (mkRequest (req_options r) (req_callback r) (req_headers r)
                        (req_errorListeners r ++ [UserListener f])%list
                        (req_written r) (req_ended r)) w' eq_refl) as [r' [H1 H2]]
    end.
    exists r'. split.
    + rewrite H1. reflexivity.
    + rewrite H2. cbn. now rewrite <- app_assoc.
Qed.

Lemma run_user_listeners (fs : list fn) (req : nat) (error : value) (w : World) :
  exists w',
    run_errorListeners req (map UserListener fs) error w = (Ok tt, w') /\
    emitted w' = emitted w.
Proof.
  revert w; induction fs as [|f fs IH]; intros w.
  - exists w. now split.
  - cbn [map run_errorListeners run_errorListener]. run.
    match goal with
    | |- context [run_errorListeners _ _ _ ?w0] => destruct (IH w0) as [w' [H1 H2]]
    end.
    exists w'. split; [exact H1 | exact H2].
Qed.

Lemma request_error_proxy (req : nat) (r : ClientRequest) (fs : list fn) (error : value)
  (w : World) :
  nth_error (requests w) req = Some r ->
  req_errorListeners r = ErrorProxy :: map UserListener fs ->
  emitted (snd (request_error req error w)) =
  (emitted w ++ match fs with
                | [] => [Ev_error error]
                | _ :: _ => []
                end)%list.
Proof.
  intros Hr Hl. unfold request_error. unfold bind at 1. unfold gets at 1.
  rewrite Hr, Hl. cbn [run_errorListeners run_errorListener].
  unfold bind at 1. unfold bind at 1. unfold gets at 1. rewrite Hr, Hl.
  destruct fs as [|f fs].
  - cbn [map length Nat.ltb Nat.leb]. rewrite emit_error.
    destruct (clientErrorListeners (self w) =? 0)%nat; reflexivity.
  - cbn [map length Nat.ltb Nat.leb]. unfold ret at 1.
    destruct (run_user_listeners (f :: fs) req error w) as [w' [H1 H2]].
    cbn [map] in H1. rewrite H1. cbn. rewrite H2. now rewrite app_nil_r.
Qed.

(** ** logOut *)

Lemma logOut_spec (options : value) (target : obj) (w : World) :
  connectionOptions (self w) = VObj target ->
  is_target target ->
  exists r,
    logOut options w = (Ok tt, set_requests (requests w ++ [r])%list w) /\
    req_callback r = VFun LogoutCallback /\
    prop (req_options r) "method" = VStr "GET" /\
    prop (req_options r) "path" =
      or_else (get_prop (or_else options (VObj [])) "path") (VStr "/logout") /\
    lookup "Cookie" (req_headers r) =
      (if truthy (sid (self w)) then Some (sid (self w)) else None).
Proof.
  intros Hco Ht. unfold logOut. msimpl. rewrite Hco.
  assert (truthy (or_else (get_prop (or_else options (VObj [])) "path") (VStr "/logout"))
          = true) as Hpath by (now apply truthy_or_else_r).
  revert Hpath.
  generalize (or_else (get_prop (or_else options (VObj [])) "path") (VStr "/logout")).
  intros path Hpath.
  rewrite getGetReq_spec; [| assumption | exact Hpath | reflexivity].
  unfold built_request, with_cookie, host_header.
  destruct Ht; destruct (truthy (sid (self w))) eqn:Hsid; run; cbn; rewrite ?Hsid;
    eexists; (split; [reflexivity |]); cbn; repeat split.
Qed.

Lemma respond_logout (rs : list ClientRequest) (r : ClientRequest)
  (response : IncomingMessage) (w : World) :
  requests w = (rs ++ [r])%list ->
  req_callback r = VFun LogoutCallback ->
  respond (length rs) response w =
  (Ok tt, set_emitted_snoc Ev_logout (set_self (set_loggedIn false (self w)) w)).
Proof.
  intros Hw Hr. unfold respond. unfold bind at 1. unfold gets at 1.
  rewrite Hw, nth_error_snoc, Hr. reflexivity.
Qed.

Lemma respond_login (rs : list ClientRequest) (r : ClientRequest)
  (response : IncomingMessage) (w : World) :
  requests w = (rs ++ [r])%list ->
  req_callback r = VFun LoginCallback ->
  respond (length rs) response w = loginCallback response w.
Proof.
  intros Hw Hr. unfold respond. unfold bind at 1. unfold gets at 1.
  rewrite Hw, nth_error_snoc, Hr. reflexivity.
Qed.

(** ** parseOptions *)

Lemma fold_left_seq_shift {A : Type} (f : A -> nat -> A) (s n : nat) (a : A) :
  fold_left f (seq (S s) n) a = fold_left (fun a i => f a (S i)) (seq s n) a.
Proof.
  revert s a; induction n as [|n IH]; intros s a; [reflexivity |].
  cbn [seq fold_left]. apply IH.
Qed.

Lemma for_loop_ext {A : Type} (n : nat) (body body' : nat -> A -> A) (a : A) :
  (forall i x, body i x = body' i x) -> for_loop n body a = for_loop n body' a.
Proof.
  intros H. unfold for_loop. generalize 0%nat. revert a.
  induction n as [|n IH]; intros a s; [reflexivity |].
  cbn [seq fold_left]. rewrite H. apply IH.
Qed.

Lemma for_loop_fill (names : list string) (values : list value) (o : obj) :
  for_loop (Nat.min (length values) (length names))
    (fun i o => set_prop (nth i names "") (nth i values VUndefined) o) o =
  fill names values o.
Proof.
  revert values o; induction names as [|k names IH]; intros values o.
  - rewrite Nat.min_0_r. now destruct values.
  - destruct values as [|v values]; [reflexivity |].
    cbn [length Nat.min fill]. rewrite <- IH.
    unfold for_loop. cbn [seq fold_left]. now rewrite fold_left_seq_shift.
Qed.

Lemma fill_app (names : list string) (values extra : list value) (o : obj) :
  (length names <= length values)%nat ->
  fill names (values ++ extra)%list o = fill names values o.
Proof.
  revert values o; induction names as [|k names IH]; intros values o Hl.
  - now destruct values, extra.
  - destruct values as [|v values]; [cbn in Hl; lia |].
    cbn [app fill]. apply IH. cbn in Hl. lia.
Qed.

Lemma prop_set_prop_same (k : string) (v : value) (o : obj) :
  prop (set_prop k v o) k = v.
Proof.
  unfold prop. induction o as [|[k' v'] o IH]; cbn [set_prop lookup].
  - now rewrite String.eqb_refl.
  - destruct (k' =? k) eqn:E; cbn [lookup]; rewrite ?E; [now rewrite String.eqb_refl |].
    exact IH.
Qed.

Lemma prop_set_prop_other (k k' : string) (v : value) (o : obj) :
  k <> k' -> prop (set_prop k v o) k' = prop o k'.
Proof.
  intros Hne. unfold prop. induction o as [|[k0 v0] o IH]; cbn [set_prop lookup].
  - destruct (k =? k') eqn:E; [apply String.eqb_eq in E; contradiction | reflexivity].
  - destruct (k0 =? k) eqn:E; cbn [lookup].
    + apply String.eqb_eq in E. subst k0.
      destruct (k =? k') eqn:E'; [apply String.eqb_eq in E'; contradiction | reflexivity].
    + destruct (k0 =? k'); [reflexivity | exact IH].
Qed.

Lemma prop_fill_other (names : list string) (values : list value) (o : obj) (k : string) :
  ~ In k names -> prop (fill names values o) k = prop o k.
Proof.
  revert values o; induction names as [|k' names IH]; intros values o Hk.
  - now destruct values.
  - destruct values as [|v values]; [reflexivity |]. cbn [fill].
    rewrite IH by (intros H; apply Hk; now right).
    apply prop_set_prop_other. intros ->. apply Hk. now left.
Qed.

Lemma prop_fill_nth (names : list string) (values : list value) (o : obj) (i : nat) :
  NoDup names ->
  (i < length names)%nat ->
  (i < length values)%nat ->
  prop (fill names values o) (nth i names "") = nth i values VUndefined.
Proof.
  revert values o i; induction names as [|k names IH]; intros values o i Hnd Hi Hv.
  - cbn in Hi. lia.
  - destruct values as [|v values]; [cbn in Hv; lia |].
    inversion Hnd as [|? ? Hk Hnd']. subst. cbn [fill]. destruct i as [|i].
    + cbn [nth]. rewrite prop_fill_other by exact Hk. apply prop_set_prop_same.
    + cbn [nth]. apply IH; [exact Hnd' | cbn in Hi; lia | cbn in Hv; lia].
Qed.

Lemma testRequiredOptions_first_falsy (v : value) (keys : list string) :
  nullish v = false ->
  testRequiredOptions v keys =
  match first_falsy v keys with
  | Some k => Throw (missingArgError k)
  | None => Ok tt
  end.
Proof.
  intros Hv. unfold first_falsy.
  induction keys as [|k keys IH]; [reflexivity |].
  cbn [testRequiredOptions find]. unfold member. rewrite Hv.
  destruct (negb (truthy (get_prop v k))); [reflexivity | exact IH].
Qed.

Lemma set_prop_fresh (k : string) (v : value) (o : obj) :
  ~ In k (map fst o) -> set_prop k v o = (o ++ [(k, v)])%list.
Proof.
  induction o as [|[k' v'] o IH]; intros Hk; [reflexivity |].
  cbn [set_prop]. destruct (k' =? k) eqn:E.
  - apply String.eqb_eq in E. exfalso. apply Hk. now left.
  - cbn [app]. rewrite IH; [reflexivity |]. intros H. apply Hk. now right.
Qed.

Lemma lookup_app_fresh (k : string) (o1 o2 : obj) :
  ~ In k (map fst o1) -> lookup k (o1 ++ o2)%list = lookup k o2.
Proof.
  induction o1 as [|[k' v'] o1 IH]; intros Hk; [reflexivity |].
  cbn [app lookup]. destruct (k' =? k) eqn:E.
  - apply String.eqb_eq in E. exfalso. apply Hk. now left.
  - apply IH. intros H. apply Hk. now right.
Qed.

(** Copying the properties of an object one by one gives the object. *)
Lemma copy_props (o : obj) :
  NoDup (map fst o) ->
  fold_left (fun acc key => set_prop key (get_prop (VObj o) key) acc) (map fst o) [] = o.
Proof.
  intros Hnd.
  assert (forall o2 o1, o = (o1 ++ o2)%list ->
            fold_left (fun acc key => set_prop key (get_prop (VObj o) key) acc)
              (map fst o2) o1 = o) as H.
  { induction o2 as [|[k v] o2 IH]; intros o1 Ho.
    - now rewrite Ho, app_nil_r.
    - cbn [map fst fold_left].
      assert (~ In k (map fst o1)) as Hk.
      { rewrite Ho, map_app in Hnd. cbn [map fst] in Hnd.
        apply NoDup_remove_2 in Hnd. intros Hin. apply Hnd, in_or_app. now left. }
      assert (get_prop (VObj o) k = v) as ->.
      { unfold get_prop. cbn [own_props]. rewrite Ho, lookup_app_fresh by exact Hk.
        cbn [lookup]. now rewrite String.eqb_refl. }
      rewrite set_prop_fresh by exact Hk. apply IH.
      rewrite Ho, <- app_assoc. reflexivity. }
  now apply (H o []).
Qed.

Lemma NoDup_app_disjoint {A : Type} (l1 l2 : list A) (x : A) :
  NoDup (l1 ++ l2)%list -> In x l1 -> In x l2 -> False.
Proof.
  induction l1 as [|y l1 IH]; intros Hnd H1 H2; [contradiction |].
  inversion Hnd as [|? ? Hy Hnd']. subst. destruct H1 as [-> | H1].
  - apply Hy, in_or_app. now right.
  - now apply IH.
Qed.

Lemma loop_bound_min (a b : nat) :
  loop_bound (Z.of_nat a) (Z.of_nat b) = Nat.min a b.
Proof. unfold loop_bound. lia. Qed.

Lemma parseOptions_positional (s : string) (rest : list value)
  (requiredArgs optionalArgs : list string) :
  let args := VStr s :: rest in
  (length requiredArgs <= length args)%nat ->
  parseOptions args requiredArgs optionalArgs =
  Ok (fill optionalArgs (skipn (length requiredArgs) args) (fill requiredArgs args [])).
Proof.
  intros args Hl. unfold parseOptions.
  change (length args =? 0)%nat with false. change (isString (arg args 0)) with true.
  cbv iota. destruct (length args <? length requiredArgs)%nat eqn:E;
    [apply Nat.ltb_lt in E; lia |].
  f_equal.
  replace (Z.of_nat (length args) - Z.of_nat (length requiredArgs))%Z
    with (Z.of_nat (length (skipn (length requiredArgs) args)))
    by (rewrite length_skipn; lia).
  rewrite loop_bound_min.
  rewrite (for_loop_ext _ _
             (fun i o => set_prop (nth i optionalArgs "")
                           (nth i (skipn (length requiredArgs) args) VUndefined) o))
    by (intros i x; unfold arg; now rewrite nth_skipn).
  rewrite for_loop_fill. f_equal.
  replace (length requiredArgs) with (Nat.min (length args) (length requiredArgs)) at 1
    by lia.
  apply for_loop_fill.
Qed.

Lemma parseOptions_too_few (s : string) (rest : list value)
  (requiredArgs optionalArgs : list string) :
  let args := VStr s :: rest in
  (length args < length requiredArgs)%nat ->
  parseOptions args requiredArgs optionalArgs = Throw (moreArgumentsError requiredArgs).
Proof.
  intros args Hl. unfold parseOptions.
  change (length args =? 0)%nat with false. change (isString (arg args 0)) with true.
  cbv iota. apply Nat.ltb_lt in Hl. now rewrite Hl.
Qed.

Lemma parseOptions_object (o : obj) (rest : list value)
  (requiredArgs optionalArgs : list string) :
  NoDup (map fst o) ->
  parseOptions (VObj o :: rest) requiredArgs optionalArgs =
  match first_falsy (VObj o) requiredArgs with
  | Some k => Throw (missingArgError k)
  | None => Ok (fill optionalArgs rest o)
  end.
Proof.
  intros Hnd. unfold parseOptions.
  change (length (VObj o :: rest) =? 0)%nat with false.
  change (isString (arg (VObj o :: rest) 0)) with false.
  change (arg (VObj o :: rest) 0) with (VObj o). cbv iota.
  rewrite testRequiredOptions_first_falsy by reflexivity.
  destruct (first_falsy (VObj o) requiredArgs) as [k |]; [reflexivity |].
  f_equal. cbn [own_props]. rewrite copy_props by exact Hnd.
  replace (Z.of_nat (length (VObj o :: rest)) - 1)%Z with (Z.of_nat (length rest))
    by (cbn [length]; lia).
  rewrite loop_bound_min.
  rewrite (for_loop_ext _ _
             (fun i o => set_prop (nth i optionalArgs "") (nth i rest VUndefined) o))
    by reflexivity.
  apply for_loop_fill.
Qed.

(** ** mergeOptions *)

Lemma fold_set_prop_other (g : string -> value) (names : list string) (o : obj)
  (k : string) :
  ~ In k names ->
  prop (fold_left (fun acc a => set_prop a (g a) acc) names o) k = prop o k.
Proof.
  revert o; induction names as [|a names IH]; intros o Hk; [reflexivity |].
  cbn [fold_left]. rewrite IH by (intros H; apply Hk; now right).
  apply prop_set_prop_other. intros ->. apply Hk. now left.
Qed.

Lemma fold_set_prop_in (g : string -> value) (names : list string) (o : obj)
  (k : string) :
  In k names ->
  prop (fold_left (fun acc a => set_prop a (g a) acc) names o) k = g k.
Proof.
  revert o; induction names as [|a names IH]; intros o Hk; [contradiction |].
  cbn [fold_left]. destruct (in_dec string_dec k names) as [Hin | Hout].
  - now apply IH.
  - destruct Hk as [-> | Hk]; [| contradiction].
    rewrite fold_set_prop_other by exact Hout. apply prop_set_prop_same.
Qed.

Lemma lookup_in_keys (k : string) (o : obj) (v : value) :
  lookup k o = Some v -> In k (map fst o).
Proof.
  induction o as [|[k' v'] o IH]; [discriminate |]. cbn [lookup map fst].
  destruct (k' =? k) eqn:E; [apply String.eqb_eq in E; now left |].
  intros H. right. now apply IH.
Qed.

(** The values of the second object win over those of the first. *)
Lemma mergeOptions_overrides (obj1 obj2 : obj) (k : string) (v : value) :
  lookup k obj2 = Some v ->
  exists obj3, mergeOptions (VObj obj1) (VObj obj2) = Ok obj3 /\ prop obj3 k = v.
Proof.
  intros Hk. unfold mergeOptions. cbn [getOwnPropertyNames own_props].
  eexists. split; [reflexivity |].
  rewrite (fold_set_prop_in (get_prop (VObj obj2)))
    by (now apply lookup_in_keys with v).
  unfold get_prop. cbn [own_props]. now rewrite Hk.
Qed.

(** A call of [logIn] that passes the validation of the credentials stores a
    connection target. *)
Lemma logIn_stores_target (options : value) (w : World) :
  let safeOpts := or_else options (VObj []) in
  truthy (get_prop safeOpts "username") = truthy (get_prop safeOpts "password") ->
  exists target,
    connectionOptions (self (snd (logIn options w))) = VObj target /\
    is_target target /\
    apiPrefix (self (snd (logIn options w))) = apiPrefix (self w).
Proof.
  intros safeOpts Hup.
  destruct (truthy (or_else (get_prop safeOpts "host") (get_prop safeOpts "port")))
    eqn:Hhp.
  - rewrite (logIn_post options w Hup Hhp). eexists. repeat split. constructor.
  - rewrite (logIn_unix_socket options w Hup Hhp). eexists. repeat split. constructor.
Qed.

(** * The properties of the specification *)

Lemma not_contains_indexOf (s needle : string) :
  indexOf s needle = (-1)%Z -> ~ contains s needle.
Proof. intros H Hc. apply indexOf_contains in Hc. contradiction. Qed.

(** The response to a login POST over host/port, in general: when its body
    contains "login", 'loginFailure' is emitted with the response and the
    body text, and [sid] and [loggedIn] stay as they were; when the body does
    not contain "login" and the response carries a Set-Cookie header, [sid]
    becomes the first Set-Cookie value cut at the first "; ", [loggedIn]
    becomes true and 'login' is emitted. *)
Theorem login_response (options : value) (response : IncomingMessage) (w : World) :
  let safeOpts := or_else options (VObj []) in
  truthy (get_prop safeOpts "username") = truthy (get_prop safeOpts "password") ->
  truthy (or_else (get_prop safeOpts "host") (get_prop safeOpts "port")) = true ->
  let w1 := snd (logIn options w) in
  let w2 := snd (respond (length (requests w)) response w1) in
  (contains (read_body response) "login" ->
   fst (respond (length (requests w)) response w1) = Ok tt /\
   emitted w2 = (emitted w1 ++ [Ev_loginFailure response (read_body response)])%list /\
   sid (self w2) = sid (self w1) /\
   loggedIn (self w2) = loggedIn (self w1))
  /\
  (~ contains (read_body response) "login" ->
   forall hdr, first_set_cookie response = Some hdr ->
   exists t,
     truncated_at_first "; " hdr t /\
     fst (respond (length (requests w)) response w1) = Ok tt /\
     sid (self w2) = VStr t /\
     loggedIn (self w2) = true /\
     emitted w2 = (emitted w1 ++ [Ev_login])%list).
Proof.
  intros safeOpts Hup Hhp w1 w2. subst w1 w2.
  rewrite (logIn_post options w Hup Hhp). cbn [snd].
  match goal with
  | |- context [respond _ _ ?w1] =>
      assert (respond (length (requests w)) response w1 = loginCallback response w1) as ->
        by (apply (respond_login (requests w) (login_request safeOpts)); reflexivity)
  end.
  split.
  - intros Hc. rewrite (loginCallback_failure _ _ Hc). repeat split.
  - intros Hc hdr Hh.
    match goal with
    | |- context [loginCallback response ?w1] =>
        destruct (loginCallback_success response hdr w1 Hc Hh) as [t [Ht ->]]
    end.
    exists t. repeat split. exact Ht.
Qed.

Lemma login_response_witness :
  let w1 := snd (logIn remote newWorld) in
  (fst (respond 0 login_page w1) = Ok tt /\
   emitted (snd (respond 0 login_page w1)) =
     (emitted w1 ++ [Ev_loginFailure login_page "<html>login</html>"])%list /\
   sid (self (snd (respond 0 login_page w1))) = sid (self w1) /\
   loggedIn (self (snd (respond 0 login_page w1))) = loggedIn (self w1))
  /\
  (exists t,
     truncated_at_first "; " "sid=abc123; Path=/" t /\
     fst (respond 0 welcome w1) = Ok tt /\
     sid (self (snd (respond 0 welcome w1))) = VStr t /\
     loggedIn (self (snd (respond 0 welcome w1))) = true /\
     emitted (snd (respond 0 welcome w1)) = (emitted w1 ++ [Ev_login])%list).
Proof.
  split.
  - apply (proj1 (login_response remote login_page newWorld eq_refl eq_refl)).
    exists "<html>", "</html>". reflexivity.
  - apply (proj2 (login_response remote welcome newWorld eq_refl eq_refl)).
    + apply not_contains_indexOf. reflexivity.
    + reflexivity.
Defined.

(** The example of the specification: the cookie "sid=abc123; Path=/" gives
    the session id "sid=abc123". *)
Example login_sets_sid :
  sid (self (snd (respond 0 welcome (snd (logIn remote newWorld))))) = VStr "sid=abc123".
Proof. reflexivity. Qed.

(** C1 (the code departs from this property).  After
    [logIn({host: '10.0.0.5', port: 8080})] on a new client: a response whose
    body, put together from its chunks, is "<html>login</html>" makes the
    client emit 'loginFailure' with the response and that text, and a
    response that sets the cookie "sid=abc123; Path=/" logs the client in with
    [sid] "sid=abc123".  But a response whose body "OK" does not contain
    "login" and that carries no Set-Cookie header makes the callback throw,
    on [setCookieHdr.split], where the property says the client is logged
    in: [sid] is not set, [loggedIn] stays false and 'login' is not
    emitted. *)
Theorem login_response_without_cookie :
  read_body login_page_in_chunks = "<html>login</html>" /\
  respond 0 login_page_in_chunks logged_in =
    (Ok tt,
     set_emitted_snoc (Ev_loginFailure login_page_in_chunks "<html>login</html>")
       logged_in) /\
  respond 0 welcome logged_in =
    (Ok tt,
     set_emitted_snoc Ev_login
       (set_self (set_loggedIn true (set_sid (VStr "sid=abc123") (self logged_in)))
          logged_in)) /\
  read_body no_cookie = "OK" /\
  indexOf (read_body no_cookie) "login" = (-1)%Z /\
  prop (headers no_cookie) "set-cookie" = VUndefined /\
  respond 0 no_cookie logged_in =
    (Throw (TypeError "Cannot read property 'split' of undefined"), logged_in) /\
  loggedIn (self logged_in) = false /\
  sid (self logged_in) = VUndefined /\
  emitted logged_in = [].
Proof. repeat split. Qed.

(** C2 (the code departs from this property).  After
    [logIn({host: '10.0.0.5', port: 8080})] the login request carries the Host
    header "10.0.0.5:8080", but the request [getJSON('/foo')] builds carries
    "undefined:undefined": the builders read [host] and [port] from their
    first argument, where only [logIn] puts them, not from the connection
    target.  The target itself is merged into the request options. *)
Theorem json_request_host_header :
  let w1 := snd (logIn remote newWorld) in
  let w2 := snd (getJSON [VStr "/foo"] w1) in
  connectionOptions (self w1) = remote /\
  option_map (fun r => prop (req_headers r) "Host") (nth_error (requests w2) 0) =
    Some (VStr "10.0.0.5:8080") /\
  option_map (fun r => prop (req_headers r) "Host") (nth_error (requests w2) 1) =
    Some (VStr "undefined:undefined") /\
  option_map (fun r => (prop (req_options r) "host", prop (req_options r) "port"))
    (nth_error (requests w2) 1) = Some (VStr "10.0.0.5", VNum 8080).
Proof. repeat split. Qed.

(** C3, as stated, fails: on a new client, to whose 'error' event nobody
    listens, [logIn({username: 'admin'})] does not return; the event emitter
    throws the error it is asked to emit. *)
Lemma logIn_xor_unheard_error_throws :
  let options := VObj [("username", VStr "admin")] in
  let error :=
    VObj [("message",
           VStr "Client login options contained the username  but no password.")] in
  clientErrorListeners (self newWorld) = 0%nat /\
  logIn options newWorld =
  (Throw (UnhandledError error), set_emitted_snoc (Ev_error error) newWorld).
Proof. split; reflexivity. Qed.

(** C3, amended.  A call to [logIn] whose options hold a username but no password, or
    a password but no username, emits one 'error' event whose message says
    which of the two is missing, hands no request to the transport and leaves
    the client as it was, [loggedIn] and [sid] included.  The call returns
    when the caller listens to the client's 'error' event; the emitter throws
    the unhandled error otherwise. *)
Theorem logIn_username_xor_password (options : value) (w : World) :
  let safeOpts := or_else options (VObj []) in
  truthy (get_prop safeOpts "username") <> truthy (get_prop safeOpts "password") ->
  let w1 := snd (logIn options w) in
  fst (logIn options w) =
    (if (clientErrorListeners (self w) =? 0)%nat
     then Throw (UnhandledError (missing_credential_error safeOpts))
     else Ok tt) /\
  emitted w1 = (emitted w ++ [Ev_error (missing_credential_error safeOpts)])%list /\
  requests w1 = requests w /\
  nextTickQueue w1 = nextTickQueue w /\
  self w1 = self w.
Proof.
  intros safeOpts Hup w1. subst w1.
  rewrite (logIn_invalid options w Hup), emit_error. cbn. repeat split.
Qed.

Lemma logIn_username_xor_password_witness :
  let options := VObj [("username", VStr "admin")] in
  let w1 := snd (logIn options listening) in
  fst (logIn options listening) = Ok tt /\
  emitted w1 =
    [Ev_error (VObj [("message",
       VStr "Client login options contained the username  but no password.")])] /\
  requests w1 = [] /\
  nextTickQueue w1 = [] /\
  self w1 = self listening.
Proof.
  apply (logIn_username_xor_password (VObj [("username", VStr "admin")]) listening).
  cbn. discriminate.
Defined.

(** C4, as stated, fails: options with neither host nor port but with a
    username and no password are stopped by the validation of the
    credentials; no connection target is stored, nothing is queued for the
    next tick, and no 'login' follows. *)
Lemma logIn_socket_needs_valid_credentials :
  let options := VObj [("username", VStr "admin")] in
  let w1 := snd (logIn options listening) in
  let w2 := snd (next_tick w1) in
  get_prop options "host" = VUndefined /\
  get_prop options "port" = VUndefined /\
  connectionOptions (self w1) = VUndefined /\
  nextTickQueue w1 = [] /\
  loggedIn (self w2) = false /\
  ~ In Ev_login (emitted w2).
Proof.
  repeat split. cbn. intros [H | []]. discriminate.
Qed.

(** C4, amended.  A call to [logIn] whose options hold neither host nor port,
    and a username and a password or neither of them, hands no request to
    the transport: it stores the socket path "/tmp/rest_server/http.sock" as
    connection target and queues a callback for the next tick, which sets
    [loggedIn] and emits 'login'. *)
Theorem logIn_local_socket (options : value) (w : World) :
  let safeOpts := or_else options (VObj []) in
  truthy (get_prop safeOpts "username") = truthy (get_prop safeOpts "password") ->
  truthy (get_prop safeOpts "host") = false ->
  truthy (get_prop safeOpts "port") = false ->
  let w1 := snd (logIn options w) in
  let w2 := snd (next_tick w1) in
  fst (logIn options w) = Ok tt /\
  requests w1 = requests w /\
  connectionOptions (self w1) = VObj [("socketPath", VStr "/tmp/rest_server/http.sock")] /\
  loggedIn (self w1) = loggedIn (self w) /\
  emitted w1 = emitted w /\
  nextTickQueue w1 = (nextTickQueue w ++ [LoginTick])%list /\
  (nextTickQueue w = [] ->
   fst (next_tick w1) = Ok tt /\
   loggedIn (self w2) = true /\
   emitted w2 = (emitted w ++ [Ev_login])%list /\
   requests w2 = requests w /\
   nextTickQueue w2 = []).
Proof.
  intros safeOpts Hup Hh Hp w1 w2. subst w1 w2.
  assert (truthy (or_else (get_prop safeOpts "host") (get_prop safeOpts "port")) = false)
    as Hhp by (unfold or_else; now rewrite Hh).
  rewrite (logIn_unix_socket options w Hup Hhp). cbn [fst snd].
  do 6 (split; [reflexivity |]).
  intros Hq. unfold next_tick. run. rewrite Hq. cbn. repeat split.
Qed.

Lemma logIn_local_socket_witness :
  let w1 := snd (logIn VUndefined newWorld) in
  let w2 := snd (next_tick w1) in
  fst (logIn VUndefined newWorld) = Ok tt /\
  requests w1 = [] /\
  connectionOptions (self w1) = VObj [("socketPath", VStr "/tmp/rest_server/http.sock")] /\
  loggedIn (self w1) = false /\
  emitted w1 = [] /\
  nextTickQueue w1 = [LoginTick] /\
  fst (next_tick w1) = Ok tt /\
  loggedIn (self w2) = true /\
  emitted w2 = [Ev_login] /\
  requests w2 = [] /\
  nextTickQueue w2 = [].
Proof.
  destruct (logIn_local_socket VUndefined newWorld eq_refl eq_refl eq_refl)
    as [H1 [H2 [H3 [H4 [H5 [H6 H7]]]]]].
  destruct (H7 eq_refl) as [H8 [H9 [H10 [H11 H12]]]].
  repeat split; assumption.
Defined.

(** C10.  A call to [logIn] over host/port in which username and password are
    both falsy raises no validation error and sends the form body
    "username=testlab&password=changeme"; a missing host is replaced by
    '127.0.0.1' and a missing port by 3001. *)
Theorem logIn_default_credentials (options : value) (w : World) :
  let safeOpts := or_else options (VObj []) in
  truthy (get_prop safeOpts "username") = false ->
  truthy (get_prop safeOpts "password") = false ->
  truthy (or_else (get_prop safeOpts "host") (get_prop safeOpts "port")) = true ->
  exists r,
    logIn options w =
      (Ok tt,
       set_requests (requests w ++ [r])%list
         (set_self
            (set_connectionOptions
               (VObj [("host", login_host safeOpts); ("port", login_port safeOpts)])
               (self w)) w)) /\
    emitted (snd (logIn options w)) = emitted w /\
    req_written r = ["username=testlab&password=changeme"] /\
    req_ended r = true /\
    prop (req_options r) "method" = VStr "POST" /\
    prop (req_options r) "host" = login_host safeOpts /\
    prop (req_options r) "port" = login_port safeOpts /\
    (truthy (get_prop safeOpts "host") = false -> login_host safeOpts = VStr "127.0.0.1") /\
    (truthy (get_prop safeOpts "port") = false -> login_port safeOpts = VNum 3001).
Proof.
  intros safeOpts Hu Hp Hhp. exists (login_request safeOpts).
  assert (truthy (get_prop safeOpts "username") = truthy (get_prop safeOpts "password"))
    as Hup by congruence.
  rewrite (logIn_post options w Hup Hhp). cbn [snd].
  do 2 (split; [reflexivity |]).
  split.
  { cbn [login_request req_written]. unfold login_data, or_else. now rewrite Hu, Hp. }
  do 4 (split; [reflexivity |]).
  unfold login_host, login_port, or_else.
  split; intros H; now rewrite H.
Qed.

Lemma logIn_default_credentials_witness :
  exists r,
    logIn (VObj [("port", VNum 8080)]) newWorld =
      (Ok tt,
       set_requests [r]
         (set_self
            (set_connectionOptions
               (VObj [("host", VStr "127.0.0.1"); ("port", VNum 8080)]) newClient)
            newWorld)) /\
    req_written r = ["username=testlab&password=changeme"] /\
    prop (req_options r) "host" = VStr "127.0.0.1".
Proof.
  destruct (logIn_default_credentials (VObj [("port", VNum 8080)]) newWorld
              eq_refl eq_refl eq_refl)
    as [r [H1 [H2 [H3 [H4 [H5 [H6 [H7 [H8 H9]]]]]]]]].
  exists r. repeat split.
  - exact H1.
  - exact H3.
  - rewrite H6. exact (H8 eq_refl).
Defined.

(** C5 (the code departs from this property).  After [logIn] over
    host/port, [putJSON('/foo', '')] sends nothing: the body text is the
    empty string, [putJSON] takes its length 0 as [contentLength], and the
    builder, which tests the required options for truthiness, throws "Missing
    required argument: contentLength".  [putJSON('/foo', undefined)] sends
    nothing either: [toJsonString] returns [undefined] and reading its
    [length] throws a TypeError.  A body of one character is sent. *)
Theorem putJSON_empty_body :
  toJsonString (VStr "") = Ok (VStr "") /\
  putJSON [VStr "/foo"; VStr ""] logged_in =
    (Throw (JsError "Missing required argument: contentLength"), logged_in) /\
  toJsonString VUndefined = Ok VUndefined /\
  putJSON [VStr "/foo"; VUndefined] logged_in =
    (Throw (TypeError "Cannot read property 'length' of undefined"), logged_in) /\
  fst (putJSON [VStr "/foo"; VStr "0"] logged_in) = Ok 1%nat /\
  option_map req_written
    (nth_error (requests (snd (putJSON [VStr "/foo"; VStr "0"] logged_in))) 1) =
    Some ["0"].
Proof. repeat split. Qed.

(** What [putJSON] sends.  On a client with a connection target, a call
    [putJSON(p, b)] with a string [p] whose body text [s], which is [b]
    itself when [b] is a string and [JSON.stringify(b)] otherwise, is a
    non-empty string, hands the transport one request: a PUT of path
    '/lrs/api/v1.0' followed by [p], with a Cookie header equal to [sid] when
    [sid] is truthy and without one otherwise, Content-Length equal to the
    length of [s], Content-Type 'application/json', and [s] as body. *)
Theorem putJSON_request (p : string) (b : value) (s : string) (target : obj) (w : World) :
  apiPrefix (self w) = "/lrs/api/v1.0" ->
  connectionOptions (self w) = VObj target ->
  is_target target ->
  toJsonString b = Ok (VStr s) ->
  s <> "" ->
  (forall t, b = VStr t -> s = t) /\
  (isString b = false -> JSON_stringify b = Ok (VStr s)) /\
  exists r,
    putJSON [VStr p; b] w =
    (Ok (length (requests w)), set_requests (requests w ++ [r])%list w) /\
    prop (req_options r) "path" = VStr ("/lrs/api/v1.0" ++ p) /\
    prop (req_options r) "method" = VStr "PUT" /\
    lookup "Cookie" (req_headers r) =
      (if truthy (sid (self w)) then Some (sid (self w)) else None) /\
    prop (req_headers r) "Content-Length" = VNum (Z.of_nat (String.length s)) /\
    prop (req_headers r) "Content-Type" = VStr "application/json" /\
    req_written r = [s] /\
    req_ended r = true.
Proof.
  intros Hpre Hco Ht Hs Hne. split; [| split].
  - intros t ->. unfold toJsonString in Hs. cbn in Hs. congruence.
  - intros Hb. unfold toJsonString in Hs. rewrite Hb in Hs.
    destruct (JSON_stringify b) as [v | e]; [exact Hs | discriminate].
  - now apply (putJSON_positional p b s target w).
Qed.

Lemma putJSON_request_witness :
  exists r,
    putJSON [VStr "/foo"; VObj [("a", VNum 1)]] with_session =
    (Ok 1%nat, set_requests (requests with_session ++ [r])%list with_session) /\
    prop (req_options r) "path" = VStr "/lrs/api/v1.0/foo" /\
    lookup "Cookie" (req_headers r) = Some (VStr "sid=abc123") /\
    prop (req_headers r) "Content-Length" = VNum 7 /\
    prop (req_headers r) "Content-Type" = VStr "application/json" /\
    req_written r = ["{" ++ dq ++ "a" ++ dq ++ ":1}"].
Proof.
  destruct (putJSON_request "/foo" (VObj [("a", VNum 1)]) ("{" ++ dq ++ "a" ++ dq ++ ":1}")
              [("host", VStr "10.0.0.5"); ("port", VNum 8080)] with_session
              eq_refl eq_refl (target_host_port _ _) eq_refl)
    as [_ [_ [r [H1 [H2 [H3 [H4 [H5 [H6 [H7 H8]]]]]]]]]].
  { discriminate. }
  exists r. repeat split; assumption.
Defined.

(** C6 (the code departs from this property).  An object that has every
    required key is refused when the value of one of them is falsy:
    [{path: '/x', body: 0}] is answered with "Missing required argument:
    body", although [body] is there, because [testRequiredOptions] tests the
    value for truthiness.  The positional form accepts the same values. *)
Theorem parseOptions_falsy_required :
  let o := [("path", VStr "/x"); ("body", VNum 0)] in
  first_absent o ["path"; "body"] = None /\
  parseOptions [VObj o] ["path"; "body"] ["callback"] =
    Throw (JsError "Missing required argument: body") /\
  parseOptions [VStr "/x"; VNum 0] ["path"; "body"] ["callback"] = Ok o.
Proof. repeat split. Qed.

(** What [parseOptions] does, case by case.  Without arguments it returns the empty record
    when no field is required and fails otherwise.  With a string as first
    argument it fails when there are fewer arguments than required fields;
    otherwise the required fields take the arguments in order, the optional
    fields the arguments that follow, in order, and arguments beyond the
    required and optional fields are ignored.  With an object as first
    argument it fails naming the first required key whose value in the object
    is falsy; otherwise the result has every property of the object, and the
    optional fields then take the arguments after the first, in order. *)
Theorem parseOptions_cases (requiredArgs optionalArgs : list string) :
  parseOptions [] requiredArgs optionalArgs =
    match requiredArgs with
    | [] => Ok []
    | _ :: _ => Throw (moreArgumentsError requiredArgs)
    end
  /\
  (forall (s : string) (rest : list value),
     let args := VStr s :: rest in
     ((length args < length requiredArgs)%nat ->
      parseOptions args requiredArgs optionalArgs =
      Throw (moreArgumentsError requiredArgs))
     /\
     ((length requiredArgs <= length args)%nat ->
      parseOptions args requiredArgs optionalArgs =
        Ok (fill optionalArgs (skipn (length requiredArgs) args)
              (fill requiredArgs args []))
      /\
      (forall extra,
         (length requiredArgs + length optionalArgs <= length args)%nat ->
         parseOptions (args ++ extra)%list requiredArgs optionalArgs =
         parseOptions args requiredArgs optionalArgs)
      /\
      (NoDup (requiredArgs ++ optionalArgs)%list ->
       forall o, parseOptions args requiredArgs optionalArgs = Ok o ->
         (forall i, (i < length requiredArgs)%nat ->
            prop o (nth i requiredArgs "") = nth i args VUndefined) /\
         (forall j, (j < length optionalArgs)%nat ->
            (length requiredArgs + j < length args)%nat ->
            prop o (nth j optionalArgs "") =
            nth (length requiredArgs + j) args VUndefined))))
  /\
  (forall (o : obj) (rest : list value),
     NoDup (map fst o) ->
     parseOptions (VObj o :: rest) requiredArgs optionalArgs =
       match first_falsy (VObj o) requiredArgs with
       | Some k => Throw (missingArgError k)
       | None => Ok (fill optionalArgs rest o)
       end)
  /\
  (forall (first : value) (rest : list value) (k : string),
     isString first = false ->
     nullish first = false ->
     first_falsy first requiredArgs = Some k ->
     parseOptions (first :: rest) requiredArgs optionalArgs = Throw (missingArgError k)).
Proof.
  split; [| split; [| split]].
  - now destruct requiredArgs.
  - intros s rest args. split; [apply parseOptions_too_few |].
    intros Hl. split; [now apply parseOptions_positional |]. split.
    + intros extra Hle. subst args.
      change ((VStr s :: rest) ++ extra)%list with (VStr s :: (rest ++ extra)%list).
      rewrite !parseOptions_positional
        by (cbn [length] in *; rewrite ?length_app; lia).
      change (VStr s :: (rest ++ extra)%list) with ((VStr s :: rest) ++ extra)%list.
      rewrite skipn_app.
      replace (length requiredArgs - length (VStr s :: rest))%nat with 0%nat by lia.
      cbn [skipn]. f_equal.
      rewrite !fill_app by (rewrite ?length_skipn; lia). reflexivity.
    + intros Hnd o Ho. subst args. rewrite parseOptions_positional in Ho by exact Hl.
      injection Ho as <-.
      apply NoDup_app_remove_l in Hnd as Hopt.
      apply NoDup_app_remove_r in Hnd as Hreq.
      split.
      * intros i Hi. rewrite prop_fill_other.
        -- apply prop_fill_nth; [exact Hreq | exact Hi | lia].
        -- intros Hin. apply (NoDup_app_disjoint _ _ _ Hnd (nth_In _ _ Hi) Hin).
      * intros j Hj Hlen. rewrite prop_fill_nth.
        -- apply nth_skipn.
        -- exact Hopt.
        -- exact Hj.
        -- rewrite length_skipn. lia.
  - intros o rest Hnd. now apply parseOptions_object.
  - intros first rest k Hs Hn Hk. unfold parseOptions.
    change (length (first :: rest) =? 0)%nat with false.
    change (arg (first :: rest) 0) with first. rewrite Hs. cbv iota.
    now rewrite testRequiredOptions_first_falsy, Hk.
Qed.

Lemma parseOptions_cases_witness :
  parseOptions [VStr "/x"] ["path"; "body"] ["callback"] =
    Throw (JsError "More arguments required (path,body)") /\
  parseOptions [VStr "/x"; VNum 1; VFun (UserFn 7 "function (res) {}"); VNum 9]
    ["path"; "body"] ["callback"] =
    Ok [("path", VStr "/x"); ("body", VNum 1);
        ("callback", VFun (UserFn 7 "function (res) {}"))] /\
  parseOptions [VObj [("body", VNum 1)]] ["path"; "body"] ["callback"] =
    Throw (JsError "Missing required argument: path") /\
  parseOptions [VObj [("path", VStr "/x"); ("body", VNum 1); ("extra", VNull)]]
    ["path"; "body"] ["callback"] =
    Ok [("path", VStr "/x"); ("body", VNum 1); ("extra", VNull)].
Proof.
  destruct (parseOptions_cases ["path"; "body"] ["callback"]) as [_ [Hs [Ho _]]].
  split; [| split; [| split]].
  - apply (proj1 (Hs "/x" [])). cbn. lia.
  - destruct (proj2 (Hs "/x" [VNum 1; VFun (UserFn 7 "function (res) {}")])) as [H1 [H2 _]].
    { cbn. lia. }
    transitivity (parseOptions [VStr "/x"; VNum 1; VFun (UserFn 7 "function (res) {}")]
                    ["path"; "body"] ["callback"]).
    + apply (H2 [VNum 9]). cbn. lia.
    + rewrite H1. reflexivity.
  - apply (Ho [("body", VNum 1)] []). repeat constructor; cbn; intuition discriminate.
  - apply (Ho [("path", VStr "/x"); ("body", VNum 1); ("extra", VNull)] []).
    repeat constructor; cbn; intuition discriminate.
Defined.

(** C7.  On a client with a connection target, whatever the response to a
    [logOut] request is, its arrival sets [loggedIn] to false and emits
    'logout'; a second [logOut] after that is accepted like the first, and the
    response to it emits 'logout' again. *)
Theorem logOut_twice (options options' : value) (response response' : IncomingMessage)
  (target : obj) (w : World) :
  connectionOptions (self w) = VObj target ->
  is_target target ->
  let w1 := snd (logOut options w) in
  let w2 := snd (respond (length (requests w)) response w1) in
  let w3 := snd (logOut options' w2) in
  let w4 := snd (respond (length (requests w2)) response' w3) in
  fst (logOut options w) = Ok tt /\
  fst (respond (length (requests w)) response w1) = Ok tt /\
  loggedIn (self w2) = false /\
  emitted w2 = (emitted w ++ [Ev_logout])%list /\
  fst (logOut options' w2) = Ok tt /\
  fst (respond (length (requests w2)) response' w3) = Ok tt /\
  loggedIn (self w4) = false /\
  emitted w4 = (emitted w ++ [Ev_logout; Ev_logout])%list.
Proof.
  intros Hco Ht w1 w2 w3 w4.
  destruct (logOut_spec options target w Hco Ht) as [r [H1 [Hcb _]]].
  assert (respond (length (requests w)) response w1 =
          (Ok tt, set_emitted_snoc Ev_logout (set_self (set_loggedIn false (self w1)) w1)))
    as H2.
  { apply (respond_logout (requests w) r); [| exact Hcb]. subst w1. now rewrite H1. }
  assert (connectionOptions (self w2) = VObj target) as Hco2.
  { subst w2. rewrite H2. subst w1. rewrite H1. exact Hco. }
  destruct (logOut_spec options' target w2 Hco2 Ht) as [r' [H3 [Hcb' _]]].
  assert (respond (length (requests w2)) response' w3 =
          (Ok tt, set_emitted_snoc Ev_logout (set_self (set_loggedIn false (self w3)) w3)))
    as H4.
  { apply (respond_logout (requests w2) r'); [| exact Hcb']. subst w3. now rewrite H3. }
  assert (emitted w2 = (emitted w ++ [Ev_logout])%list) as He2.
  { subst w2. rewrite H2. subst w1. rewrite H1. reflexivity. }
  repeat split.
  - now rewrite H1.
  - now rewrite H2.
  - subst w2. now rewrite H2.
  - exact He2.
  - now rewrite H3.
  - now rewrite H4.
  - subst w4. now rewrite H4.
  - subst w4. rewrite H4. subst w3. rewrite H3. cbn. rewrite He2.
    now rewrite <- app_assoc.
Qed.

Lemma logOut_twice_witness :
  let w := with_session in
  let w1 := snd (logOut VUndefined w) in
  let w2 := snd (respond (length (requests w)) server_error w1) in
  let w3 := snd (logOut VUndefined w2) in
  let w4 := snd (respond (length (requests w2)) not_found w3) in
  fst (logOut VUndefined w) = Ok tt /\
  fst (respond (length (requests w)) server_error w1) = Ok tt /\
  loggedIn (self w2) = false /\
  emitted w2 = (emitted w ++ [Ev_logout])%list /\
  fst (logOut VUndefined w2) = Ok tt /\
  fst (respond (length (requests w2)) not_found w3) = Ok tt /\
  loggedIn (self w4) = false /\
  emitted w4 = (emitted w ++ [Ev_logout; Ev_logout])%list.
Proof.
  exact (logOut_twice VUndefined VUndefined server_error not_found
           [("host", VStr "10.0.0.5"); ("port", VNum 8080)]
           with_session eq_refl (target_host_port _ _)).
Defined.

(** The same run, evaluated: the client was logged in, and each of the two
    responses, an error page and an empty 404, is followed by 'logout'. *)
Example logOut_twice_run :
  let w1 := snd (logOut VUndefined with_session) in
  let w2 := snd (respond 1 server_error w1) in
  let w3 := snd (logOut VUndefined w2) in
  let w4 := snd (respond 2 not_found w3) in
  loggedIn (self with_session) = true /\
  loggedIn (self w2) = false /\
  emitted w2 = [Ev_login; Ev_logout] /\
  loggedIn (self w4) = false /\
  emitted w4 = [Ev_login; Ev_logout; Ev_logout].
Proof. vm_compute. repeat split. Qed.

(** C8.  For a request a JSON verb has returned, on which the caller has
    then registered the error listeners [fs]: when the transport emits
    'error' on the request, the client emits 'error' with that error exactly
    when the request has no more than one error listener, which is exactly
    when the caller has registered none; with a listener of the caller the
    client emits nothing. *)
Theorem error_proxy_forwards (verb : list value -> M nat) (arguments : list value)
  (fs : list fn) (error : value) (w w1 : World) (req : nat) :
  In verb [getJSON; putJSON; postJSON; deleteJSON] ->
  verb arguments w = (Ok req, w1) ->
  let w2 := snd (caller_listens req fs w1) in
  let w3 := snd (request_error req error w2) in
  listeners_of req w2 = ErrorProxy :: map UserListener fs /\
  emitted w3 =
    (emitted w2 ++ if (1 <? length (listeners_of req w2))%nat then [] else [Ev_error error])%list /\
  (emitted w3 = (emitted w2 ++ [Ev_error error])%list <-> fs = []) /\
  (fs <> [] -> emitted w3 = emitted w2).
Proof.
  intros Hverb Hcall w2 w3.
  assert (appended w w1 req [ErrorProxy]) as [-> [r [-> Hr]]].
  { destruct Hverb as [<- | [<- | [<- | [<- | []]]]].
    - now apply getJSON_appended with arguments.
    - now apply putJSON_appended with arguments.
    - now apply postJSON_appended with arguments.
    - now apply deleteJSON_appended with arguments. }
  destruct (caller_listens_snoc fs (requests w) r
              (set_requests (requests w ++ [r])%list w) eq_refl) as [r' [H1 H2]].
  rewrite Hr in H2. cbn [app] in H2.
  assert (nth_error (requests w2) (length (requests w)) = Some r') as Hnth.
  { subst w2. rewrite H1. cbn. apply nth_error_snoc. }
  assert (listeners_of (length (requests w)) w2 = ErrorProxy :: map UserListener fs) as Hls.
  { unfold listeners_of. now rewrite Hnth. }
  assert (emitted w3 =
          (emitted w2 ++ match fs with
                         | [] => [Ev_error error]
                         | _ :: _ => []
                         end)%list) as He
    by (apply (request_error_proxy _ r'); assumption).
  split; [exact Hls |]. rewrite Hls, He. cbn [length]. rewrite length_map.
  destruct fs as [|f fs]; cbn.
  - repeat split. intros H. now elim H.
  - rewrite app_nil_r. repeat split; try discriminate.
    intros H. apply (f_equal (@length event)) in H. rewrite length_app in H.
    cbn in H. lia.
Qed.

Lemma error_proxy_forwards_witness :
  let w1 := snd (getJSON [VStr "/foo"] logged_in) in
  let w2 := snd (caller_listens 1 [UserFn 3 "function (e) {}"] w1) in
  emitted (snd (request_error 1 (VStr "ECONNRESET") w1)) =
    [Ev_error (VStr "ECONNRESET")] /\
  emitted (snd (request_error 1 (VStr "ECONNRESET") w2)) = [].
Proof.
  split.
  - destruct (error_proxy_forwards getJSON [VStr "/foo"] [] (VStr "ECONNRESET")
                logged_in (snd (getJSON [VStr "/foo"] logged_in)) 1
                (or_introl eq_refl) eq_refl) as [_ [_ [H _]]].
    apply (proj2 H eq_refl).
  - destruct (error_proxy_forwards getJSON [VStr "/foo"] [UserFn 3 "function (e) {}"]
                (VStr "ECONNRESET")
                logged_in (snd (getJSON [VStr "/foo"] logged_in)) 1
                (or_introl eq_refl) eq_refl) as [_ [_ [_ H]]].
    apply H. discriminate.
Defined.

(** C9.  The constructor leaves [connectionOptions] undefined, and
    [mergeOptions] throws when its second argument is undefined.  So on a
    client without a connection target every call of [getJSON], [putJSON],
    [postJSON], [deleteJSON] and [logOut] throws, and leaves the world as it
    was: no request reaches the transport. *)
Theorem calls_before_logIn_throw (w : World) :
  connectionOptions (self w) = VUndefined ->
  connectionOptions newClient = VUndefined /\
  (forall o, exists e, mergeOptions (VObj o) VUndefined = Throw e) /\
  (forall arguments, exists e, getJSON arguments w = (Throw e, w)) /\
  (forall arguments, exists e, putJSON arguments w = (Throw e, w)) /\
  (forall arguments, exists e, postJSON arguments w = (Throw e, w)) /\
  (forall arguments, exists e, deleteJSON arguments w = (Throw e, w)) /\
  (forall options, exists e, logOut options w = (Throw e, w)).
Proof.
  intros Hco. split; [reflexivity |]. split; [intros o; eexists; reflexivity |].
  repeat split; intros a.
  - now apply getJSON_undefined.
  - now apply putJSON_undefined.
  - now apply postJSON_undefined.
  - now apply deleteJSON_undefined.
  - now apply logOut_undefined.
Qed.

Lemma calls_before_logIn_throw_witness :
  getJSON [VStr "/foo"] newWorld =
    (Throw (TypeError "Cannot convert undefined or null to object"), newWorld) /\
  (exists e, putJSON [VStr "/foo"; VObj [("a", VNum 1)]] newWorld = (Throw e, newWorld)) /\
  (exists e, logOut VUndefined newWorld = (Throw e, newWorld)).
Proof.
  destruct (calls_before_logIn_throw newWorld eq_refl) as [_ [_ [_ [Hp [_ [_ Hl]]]]]].
  split; [reflexivity |]. split; [apply Hp | apply Hl].
Defined.

(** * Further properties of the module *)

(** ** mergeOptions and testRequiredOptions *)

Lemma lookup_set_prop_same (k : string) (v : value) (o : obj) :
  lookup k (set_prop k v o) = Some v.
Proof.
  induction o as [|[k' v'] o IH]; cbn [set_prop lookup].
  - now rewrite String.eqb_refl.
  - destruct (k' =? k) eqn:E; cbn [lookup]; rewrite ?E; [now rewrite String.eqb_refl |].
    exact IH.
Qed.

Lemma lookup_set_prop_other (k k' : string) (v : value) (o : obj) :
  k <> k' -> lookup k' (set_prop k v o) = lookup k' o.
Proof.
  intros Hne. induction o as [|[k0 v0] o IH]; cbn [set_prop lookup].
  - destruct (k =? k') eqn:E; [apply String.eqb_eq in E; contradiction | reflexivity].
  - destruct (k0 =? k) eqn:E; cbn [lookup].
    + apply String.eqb_eq in E. subst k0.
      destruct (k =? k') eqn:E'; [apply String.eqb_eq in E'; contradiction | reflexivity].
    + destruct (k0 =? k'); [reflexivity | exact IH].
Qed.

Lemma lookup_fold_other (g : string -> value) (names : list string) (o : obj)
  (k : string) :
  ~ In k names ->
  lookup k (fold_left (fun acc a => set_prop a (g a) acc) names o) = lookup k o.
Proof.
  revert o; induction names as [|a names IH]; intros o Hk; [reflexivity |].
  cbn [fold_left]. rewrite IH by (intros H; apply Hk; now right).
  apply lookup_set_prop_other. intros ->. apply Hk. now left.
Qed.

Lemma lookup_fold_in (g : string -> value) (names : list string) (o : obj)
  (k : string) :
  In k names ->
  lookup k (fold_left (fun acc a => set_prop a (g a) acc) names o) = Some (g k).
Proof.
  revert o; induction names as [|a names IH]; intros o Hk; [contradiction |].
  cbn [fold_left]. destruct (in_dec string_dec k names) as [Hin | Hout].
  - now apply IH.
  - destruct Hk as [-> | Hk]; [| contradiction].
    rewrite lookup_fold_other by exact Hout. apply lookup_set_prop_same.
Qed.

Lemma lookup_none_keys (k : string) (o : obj) :
  lookup k o = None -> ~ In k (map fst o).
Proof.
  induction o as [|[k' v'] o IH]; [intros _ [] |]. cbn [lookup map fst].
  destruct (k' =? k) eqn:E; [discriminate |].
  intros H [-> | Hin]; [now rewrite String.eqb_refl in E | now apply IH].
Qed.

(** X1.  [mergeOptions] on two objects returns an object that has, for every
    key, the value of the second object when the second object has the key,
    and the value of the first otherwise; it has no other keys.  It throws
    when an argument is [undefined] or [null]. *)
Theorem mergeOptions_lookup (obj1 obj2 : obj) :
  (exists obj3,
     mergeOptions (VObj obj1) (VObj obj2) = Ok obj3 /\
     forall k, lookup k obj3 =
               match lookup k obj2 with
               | Some v => Some v
               | None => lookup k obj1
               end) /\
  (forall v, nullish v = true ->
     (exists e, mergeOptions v (VObj obj2) = Throw e) /\
     (exists e, mergeOptions (VObj obj1) v = Throw e)).
Proof.
  split.
  - unfold mergeOptions. cbn [getOwnPropertyNames own_props].
    eexists. split; [reflexivity |]. intros k.
    destruct (lookup k obj2) as [v |] eqn:H2.
    + rewrite (lookup_fold_in (get_prop (VObj obj2)))
        by (now apply lookup_in_keys with v).
      unfold get_prop. cbn [own_props]. now rewrite H2.
    + rewrite lookup_fold_other by (now apply lookup_none_keys).
      destruct (lookup k obj1) as [v |] eqn:H1.
      * rewrite (lookup_fold_in (get_prop (VObj obj1)))
          by (now apply lookup_in_keys with v).
        unfold get_prop. cbn [own_props]. now rewrite H1.
      * rewrite lookup_fold_other by (now apply lookup_none_keys). reflexivity.
  - intros v Hv. destruct v; try discriminate; split; eexists; reflexivity.
Qed.

(** X2.  For options that are neither [undefined] nor [null],
    [testRequiredOptions] returns exactly when every required option has a
    truthy value, and otherwise throws the error that names the first
    required option whose value is falsy.  Options that are [undefined] or
    [null] make it throw as soon as one option is required. *)
Theorem testRequiredOptions_outcome (options : value) (requiredOptions : list string) :
  (nullish options = false ->
   (testRequiredOptions options requiredOptions = Ok tt <->
    Forall (fun opt => truthy (get_prop options opt) = true) requiredOptions) /\
   (forall opt, first_falsy options requiredOptions = Some opt ->
      testRequiredOptions options requiredOptions =
      Throw (JsError ("Missing required argument: " ++ opt)))) /\
  (nullish options = true ->
   requiredOptions <> [] ->
   exists msg, testRequiredOptions options requiredOptions = Throw (TypeError msg)).
Proof.
  split.
  - intros Hn. split.
    + induction requiredOptions as [|opt rest IH].
      * split; [constructor | reflexivity].
      * cbn [testRequiredOptions]. unfold member. rewrite Hn.
        destruct (truthy (get_prop options opt)) eqn:Ht; cbn [negb].
        -- rewrite IH. split; [now constructor | now inversion 1].
        -- split; [discriminate | inversion 1; congruence].
    + intros opt Hf. rewrite testRequiredOptions_first_falsy by exact Hn.
      now rewrite Hf.
  - intros Hn Hne. destruct requiredOptions as [|opt rest]; [congruence |].
    cbn [testRequiredOptions]. unfold member. rewrite Hn. eexists. reflexivity.
Qed.

Lemma testRequiredOptions_outcome_witness :
  testRequiredOptions (VObj [("path", VStr "/x"); ("contentLength", VNum 0)])
    ["path"; "contentLength"; "contentType"] =
    Throw (JsError "Missing required argument: contentLength") /\
  (exists msg, testRequiredOptions VUndefined ["path"] = Throw (TypeError msg)).
Proof.
  destruct (testRequiredOptions_outcome
              (VObj [("path", VStr "/x"); ("contentLength", VNum 0)])
              ["path"; "contentLength"; "contentType"]) as [H _].
  destruct (testRequiredOptions_outcome VUndefined ["path"]) as [_ H'].
  split.
  - apply (proj2 (H eq_refl) "contentLength"). reflexivity.
  - apply H'; [reflexivity | discriminate].
Defined.

Lemma mergeOptions_lookup_witness :
  (exists obj3,
     mergeOptions (VObj [("path", VStr "/a"); ("host", VStr "old")])
       (VObj [("host", VStr "new"); ("port", VNum 80)]) = Ok obj3 /\
     lookup "path" obj3 = Some (VStr "/a") /\
     lookup "host" obj3 = Some (VStr "new") /\
     lookup "port" obj3 = Some (VNum 80) /\
     lookup "agent" obj3 = None) /\
  (exists e, mergeOptions (VObj []) VUndefined = Throw e).
Proof.
  destruct (mergeOptions_lookup [("path", VStr "/a"); ("host", VStr "old")]
              [("host", VStr "new"); ("port", VNum 80)]) as [[obj3 [H1 H2]] _].
  destruct (mergeOptions_lookup [] []) as [_ H3].
  split.
  - exists obj3. split; [exact H1 |].
    repeat split; rewrite H2; reflexivity.
  - apply (H3 VUndefined eq_refl).
Defined.


(** ** The requests of the JSON verbs *)

Lemma callback_ok_default (cb : value) :
  callback_ok cb -> callback_ok (or_else cb (VFun PrintResponse)).
Proof.
  unfold callback_ok, or_else. destruct (truthy cb) eqn:E; [| reflexivity].
  now rewrite E.
Qed.

Ltac verb_parsed Hparse Hs Hcb Hpre Hco Ht spec :=
  msimpl; rewrite Hparse; try rewrite Hs;
  rewrite ?member_string_length, Hco, Hpre; cbn;
  rewrite spec;
  [ | first [ exact Ht | reflexivity | now apply truthy_string_length
            | now apply callback_ok_default ] ..];
  unfold verb_request, verb_options, built_request, with_cookie, host_header;
  rewrite Hpre;
  match goal with
  | |- context [or_else ?cb (VFun PrintResponse)] =>
      generalize (or_else cb (VFun PrintResponse)); intros callback
  end;
  match goal with
  | |- context [to_string ?p] => generalize (to_string p); intros path
  end.

Lemma getJSON_parsed (arguments : list value) (options target : obj) (w : World) :
  parseOptions arguments ["path"] ["callback"] = Ok options ->
  callback_ok (prop options "callback") ->
  apiPrefix (self w) = "/lrs/api/v1.0" ->
  connectionOptions (self w) = VObj target ->
  is_target target ->
  getJSON arguments w =
  (Ok (length (requests w)),
   set_requests
     (requests w ++ [verb_request "GET" true (self w) options None target])%list w).
Proof.
  intros Hparse Hcb Hpre Hco Ht. unfold getJSON.
  verb_parsed Hparse Hparse Hcb Hpre Hco Ht getGetReq_spec.
  destruct Ht; destruct (truthy (sid (self w))) eqn:Hsid; run; cbn; rewrite ?Hsid;
    reflexivity.
Qed.


Lemma putJSON_parsed (arguments : list value) (options target : obj) (s : string)
  (w : World) :
  parseOptions arguments ["path"; "body"] ["callback"] = Ok options ->
  toJsonString (prop options "body") = Ok (VStr s) ->
  s <> "" ->
  callback_ok (prop options "callback") ->
  apiPrefix (self w) = "/lrs/api/v1.0" ->
  connectionOptions (self w) = VObj target ->
  is_target target ->
  putJSON arguments w =
  (Ok (length (requests w)),
   set_requests
     (requests w ++ [verb_request "PUT" false (self w) options (Some s) target])%list w).
Proof.
  intros Hparse Hs Hne Hcb Hpre Hco Ht. unfold putJSON.
  verb_parsed Hparse Hs Hcb Hpre Hco Ht getPutReq_spec.
  pose proof (truthy_string_length s Hne) as Hlen. revert Hlen.
  generalize (Z.of_nat (String.length s)). intros n Hn.
  destruct Ht; destruct (truthy (sid (self w))) eqn:Hsid; run; cbn; rewrite ?Hsid;
    reflexivity.
Qed.

Lemma postJSON_parsed (arguments : list value) (options target : obj) (s : string)
  (w : World) :
  parseOptions arguments ["path"; "body"] ["callback"] = Ok options ->
  toJsonString (prop options "body") = Ok (VStr s) ->
  s <> "" ->
  callback_ok (prop options "callback") ->
  apiPrefix (self w) = "/lrs/api/v1.0" ->
  connectionOptions (self w) = VObj target ->
  is_target target ->
  postJSON arguments w =
  (Ok (length (requests w)),
   set_requests
     (requests w ++ [verb_request "POST" true (self w) options (Some s) target])%list w).
Proof.
  intros Hparse Hs Hne Hcb Hpre Hco Ht. unfold postJSON.
  verb_parsed Hparse Hs Hcb Hpre Hco Ht getPostReq_spec.
  pose proof (truthy_string_length s Hne) as Hlen. revert Hlen.
  generalize (Z.of_nat (String.length s)). intros n Hn.
  destruct Ht; destruct (truthy (sid (self w))) eqn:Hsid; run; cbn; rewrite ?Hsid;
    reflexivity.
Qed.

Lemma verb_request_facts (method : string) (agent : bool) (c : Client) (options : obj)
  (entity : option string) (target : obj) :
  is_target target ->
  let r := verb_request method agent c options entity target in
  prop (req_options r) "method" = VStr method /\
  prop (req_options r) "path" = VStr (apiPrefix c ++ to_string (prop options "path")) /\
  lookup "agent" (req_options r) = (if agent then Some (VBool false) else None) /\
  (forall k v, In (k, v) target -> lookup k (req_options r) = Some v) /\
  lookup "Cookie" (req_headers r) = (if truthy (sid c) then Some (sid c) else None) /\
  lookup "Content-Length" (req_headers r) =
    option_map (fun s => VNum (Z.of_nat (String.length s))) entity /\
  lookup "Content-Type" (req_headers r) =
    option_map (fun _ => VStr "application/json") entity /\
  lookup "Host" (req_headers r) = Some (VStr "undefined:undefined") /\
  req_callback r = or_else (prop options "callback") (VFun PrintResponse) /\
  req_errorListeners r = [ErrorProxy] /\
  req_written r = match entity with
                  | Some s => [s]
                  | None => []
                  end /\
  req_ended r = true.
Proof.
  intros Ht r. subst r.
  unfold verb_request, verb_options, built_request, with_cookie, host_header.
  generalize (or_else (prop options "callback") (VFun PrintResponse)).
  generalize (apiPrefix c ++ to_string (prop options "path")).
  intros path callback.
  destruct Ht, agent, entity; destruct (truthy (sid c)) eqn:Hsid; cbn; rewrite ?Hsid;
    repeat split;
    intros k v Hin; cbn in Hin;
    repeat match goal with
           | H : _ \/ _ |- _ => destruct H
           | H : False |- _ => destruct H
           | H : (_, _) = (_, _) |- _ => injection H as <- <-
           end; reflexivity.
Qed.





(** ** The body of a PUT or POST *)

Lemma write_verb_empty_body (verb : list value -> M nat) (p : string) (w : World) :
  In verb [putJSON; postJSON] ->
  apiPrefix (self w) = "/lrs/api/v1.0" ->
  verb [VStr p; VStr ""] w =
  (Throw (JsError "Missing required argument: contentLength"), w).
Proof.
  intros Hverb Hpre.
  destruct Hverb as [<- | [<- | []]]; [unfold putJSON | unfold postJSON];
    change (parseOptions [VStr p; VStr ""] ["path"; "body"] ["callback"])
      with (Ok [("path", VStr p); ("body", VStr "")] : outcome obj);
    msimpl; rewrite Hpre; [unfold getPutReq | unfold getPostReq]; reflexivity.
Qed.

Lemma write_verb_undefined_body (verb : list value -> M nat) (p : string) (b : value)
  (w : World) :
  In verb [putJSON; postJSON] ->
  b = VUndefined \/ is_function b = true ->
  verb [VStr p; b] w =
  (Throw (TypeError "Cannot read property 'length' of undefined"), w).
Proof.
  intros Hverb Hb.
  assert (toJsonString b = Ok VUndefined) as Hs
    by (destruct Hb as [-> | Hf]; [reflexivity | destruct b; try discriminate; reflexivity]).
  destruct Hverb as [<- | [<- | []]]; [unfold putJSON | unfold postJSON];
    change (parseOptions [VStr p; b] ["path"; "body"] ["callback"])
      with (Ok [("path", VStr p); ("body", b)] : outcome obj);
    msimpl;
    change (prop [("path", VStr p); ("body", b)] "body") with b;
    rewrite Hs; reflexivity.
Qed.

(** X6.  On a client whose [apiPrefix] is the one the constructor sets, and
    for a string [p]: [putJSON(p, '')] and [postJSON(p, '')] throw "Missing
    required argument: contentLength", and with [undefined] or a function as
    body they throw a TypeError, in any state and without creating a request
    or changing anything; a body that is a string and not empty is sent as it
    is when the client has a connection target. *)
Theorem write_verb_by_body (verb : list value -> M nat) (p : string) (b : value)
  (w : World) :
  In verb [putJSON; postJSON] ->
  apiPrefix (self w) = "/lrs/api/v1.0" ->
  (b = VStr "" ->
   verb [VStr p; b] w =
   (Throw (JsError "Missing required argument: contentLength"), w)) /\
  (b = VUndefined \/ is_function b = true ->
   exists msg, verb [VStr p; b] w = (Throw (TypeError msg), w)) /\
  (forall s target,
     b = VStr s ->
     s <> "" ->
     connectionOptions (self w) = VObj target ->
     is_target target ->
     exists r,
       verb [VStr p; b] w =
         (Ok (length (requests w)), set_requests (requests w ++ [r])%list w) /\
       req_written r = [s]).
Proof.
  intros Hverb Hpre. split; [| split].
  - intros ->. now apply write_verb_empty_body.
  - intros Hb. eexists. now apply write_verb_undefined_body.
  - intros s target -> Hne Hco Ht.
    destruct Hverb as [<- | [<- | []]]; eexists; split.
    + apply (putJSON_parsed [VStr p; VStr s] [("path", VStr p); ("body", VStr s)]
               target s w); (reflexivity || assumption).
    + reflexivity.
    + apply (postJSON_parsed [VStr p; VStr s] [("path", VStr p); ("body", VStr s)]
               target s w); (reflexivity || assumption).
    + reflexivity.
Qed.

Lemma write_verb_by_body_witness :
  putJSON [VStr "/foo"; VStr ""] newWorld =
    (Throw (JsError "Missing required argument: contentLength"), newWorld) /\
  (exists msg, postJSON [VStr "/foo"; VFun PrintResponse] logged_in =
                 (Throw (TypeError msg), logged_in)) /\
  (exists r,
     postJSON [VStr "/foo"; VStr "[]"] logged_in =
       (Ok (length (requests logged_in)),
        set_requests (requests logged_in ++ [r])%list logged_in) /\
     req_written r = ["[]"]).
Proof.
  split; [| split].
  - exact (proj1 (write_verb_by_body putJSON "/foo" (VStr "") newWorld
                    (or_introl eq_refl) eq_refl) eq_refl).
  - exact (proj1 (proj2 (write_verb_by_body postJSON "/foo" (VFun PrintResponse) logged_in
                           (or_intror (or_introl eq_refl)) eq_refl))
             (or_intror eq_refl)).
  - exact (proj2 (proj2 (write_verb_by_body postJSON "/foo" (VStr "[]") logged_in
                           (or_intror (or_introl eq_refl)) eq_refl))
             "[]" [("host", VStr "10.0.0.5"); ("port", VNum 8080)] eq_refl
             ltac:(discriminate) eq_refl (target_host_port _ _)).
Defined.

(** ** The two call shapes *)

Lemma fill_fresh (names : list string) (values : list value) (o : obj) :
  NoDup (map fst o ++ names)%list ->
  fill names values o = (o ++ combine names values)%list.
Proof.
  revert values o; induction names as [|k names IH]; intros values o Hnd.
  - destruct values; cbn; now rewrite app_nil_r.
  - destruct values as [|v values]; [cbn; now rewrite app_nil_r |].
    cbn [fill combine].
    assert (~ In k (map fst o)) as Hk.
    { apply NoDup_remove_2 in Hnd. intros Hin. apply Hnd, in_or_app. now left. }
    rewrite set_prop_fresh by exact Hk. rewrite IH.
    + now rewrite <- app_assoc.
    + rewrite map_app. cbn [map fst]. rewrite <- app_assoc. exact Hnd.
Qed.

Lemma map_fst_combine (names : list string) (values : list value) :
  (length names <= length values)%nat -> map fst (combine names values) = names.
Proof.
  revert values; induction names as [|k names IH]; intros values Hl; [reflexivity |].
  destruct values as [|v values]; [cbn in Hl; lia |].
  cbn [combine map fst]. f_equal. apply IH. cbn in Hl. lia.
Qed.

Lemma combine_app_skipn (l1 l2 : list string) (values : list value) :
  (length l1 <= length values)%nat ->
  combine (l1 ++ l2) values =
  (combine l1 values ++ combine l2 (skipn (length l1) values))%list.
Proof.
  revert values; induction l1 as [|k l1 IH]; intros values Hl; [reflexivity |].
  destruct values as [|v values]; [cbn in Hl; lia |].
  cbn [app combine length skipn]. f_equal. apply IH. cbn in Hl. lia.
Qed.

Lemma positional_combine (s : string) (rest : list value)
  (requiredArgs optionalArgs : list string) :
  NoDup (requiredArgs ++ optionalArgs)%list ->
  (length requiredArgs <= length (VStr s :: rest))%nat ->
  parseOptions (VStr s :: rest) requiredArgs optionalArgs =
  Ok (combine (requiredArgs ++ optionalArgs) (VStr s :: rest)).
Proof.
  intros Hnd Hl. rewrite parseOptions_positional by exact Hl. f_equal.
  rewrite (fill_fresh requiredArgs) by (now apply NoDup_app_remove_r in Hnd).
  cbn [app]. rewrite fill_fresh by (now rewrite map_fst_combine).
  now rewrite combine_app_skipn.
Qed.

(** X7.  With a string as first argument and at least as many arguments as
    required fields, and field names that are all different, [parseOptions]
    pairs the field names, required then optional, with the arguments in
    order: the result is exactly that list of pairs, cut at the shorter of
    the two. *)
Theorem parseOptions_positional_pairs (s : string) (rest : list value)
  (requiredArgs optionalArgs : list string) :
  NoDup (requiredArgs ++ optionalArgs)%list ->
  (length requiredArgs <= length (VStr s :: rest))%nat ->
  parseOptions (VStr s :: rest) requiredArgs optionalArgs =
  Ok (combine (requiredArgs ++ optionalArgs) (VStr s :: rest)).
Proof. exact (positional_combine s rest requiredArgs optionalArgs). Qed.

Lemma parseOptions_positional_pairs_witness :
  parseOptions [VStr "/x"; VNull; VFun PrintResponse; VNum 1] ["path"; "body"] ["callback"] =
  Ok [("path", VStr "/x"); ("body", VNull); ("callback", VFun PrintResponse)].
Proof.
  apply (parseOptions_positional_pairs "/x" [VNull; VFun PrintResponse; VNum 1]
           ["path"; "body"] ["callback"]).
  - repeat constructor; cbn; intuition discriminate.
  - cbn. lia.
Defined.

Lemma NoDup_keys_combine (names : list string) (values : list value) :
  NoDup names -> NoDup (map fst (combine names values)).
Proof.
  revert values; induction names as [|k names IH]; intros values Hnd; [constructor |].
  destruct values as [|v values]; [constructor |].
  inversion Hnd as [|? ? Hk Hnd']. subst. cbn [combine map fst]. constructor.
  - intros Hin. apply Hk. clear - Hin. revert values Hin.
    induction names as [|k' names IH']; intros values Hin; [contradiction |].
    destruct values as [|v' values]; [contradiction |].
    cbn in Hin. destruct Hin as [-> | Hin]; [now left | right; eauto].
  - now apply IH.
Qed.

Lemma find_none_all {A : Type} (f : A -> bool) (l : list A) :
  (forall x, In x l -> f x = false) -> find f l = None.
Proof.
  induction l as [|x l IH]; intros H; [reflexivity |]. cbn [find].
  rewrite (H x (or_introl eq_refl)). apply IH. intros y Hy. apply H. now right.
Qed.

Lemma object_of_positional (s : string) (rest : list value)
  (requiredArgs optionalArgs : list string) :
  let args := VStr s :: rest in
  NoDup (requiredArgs ++ optionalArgs)%list ->
  (length requiredArgs <= length args)%nat ->
  (forall i, (i < length requiredArgs)%nat -> truthy (nth i args VUndefined) = true) ->
  parseOptions [VObj (combine (requiredArgs ++ optionalArgs) args)]
    requiredArgs optionalArgs =
  parseOptions args requiredArgs optionalArgs.
Proof.
  intros args Hnd Hl Htruthy. subst args.
  rewrite positional_combine by assumption.
  rewrite parseOptions_object by (now apply NoDup_keys_combine).
  assert (first_falsy (VObj (combine (requiredArgs ++ optionalArgs) (VStr s :: rest)))
            requiredArgs = None) as ->.
  { apply find_none_all. intros k Hin.
    destruct (In_nth _ _ "" Hin) as [i [Hi Hk]].
    change (get_prop (VObj ?o) k) with (prop o k).
    replace (combine (requiredArgs ++ optionalArgs) (VStr s :: rest))
      with (fill (requiredArgs ++ optionalArgs) (VStr s :: rest) [])
      by (now rewrite fill_fresh).
    rewrite <- Hk, <- (app_nth1 requiredArgs optionalArgs "" Hi).
    rewrite prop_fill_nth; [| exact Hnd | rewrite length_app; lia | lia].
    now rewrite Htruthy. }
  now destruct optionalArgs.
Qed.

(** X8.  The two call shapes are interchangeable.  When the field names are
    all different and the arguments given for the required fields are
    truthy, a call with positional arguments and a call with the single
    object that holds the same values under the field names normalise to the
    same options; so each of the four JSON verbs does the same for
    [verb(path, ...)] as for [verb({path: path, ...})]. *)
Theorem call_shapes_agree (s : string) (rest : list value)
  (requiredArgs optionalArgs : list string) :
  let args := VStr s :: rest in
  let record := VObj (combine (requiredArgs ++ optionalArgs) args) in
  NoDup (requiredArgs ++ optionalArgs)%list ->
  (length requiredArgs <= length args)%nat ->
  (forall i, (i < length requiredArgs)%nat -> truthy (nth i args VUndefined) = true) ->
  parseOptions [record] requiredArgs optionalArgs =
    parseOptions args requiredArgs optionalArgs /\
  (requiredArgs = ["path"] -> optionalArgs = ["callback"] ->
   forall w, getJSON [record] w = getJSON args w /\
             deleteJSON [record] w = deleteJSON args w) /\
  (requiredArgs = ["path"; "body"] -> optionalArgs = ["callback"] ->
   forall w, putJSON [record] w = putJSON args w /\
             postJSON [record] w = postJSON args w).
Proof.
  intros args record Hnd Hl Htruthy.
  pose proof (object_of_positional s rest requiredArgs optionalArgs Hnd Hl Htruthy) as H.
  split; [exact H |]. subst args record.
  split; intros Hr Ho w; subst requiredArgs optionalArgs; split;
    unfold getJSON, deleteJSON, putJSON, postJSON; rewrite H; reflexivity.
Qed.

Lemma call_shapes_agree_witness :
  putJSON [VObj [("path", VStr "/x"); ("body", VNum 1); ("callback", VFun PrintResponse)]]
    logged_in =
  putJSON [VStr "/x"; VNum 1; VFun PrintResponse] logged_in.
Proof.
  destruct (call_shapes_agree "/x" [VNum 1; VFun PrintResponse] ["path"; "body"]
              ["callback"]) as [_ [_ H]].
  - repeat constructor; cbn; intuition discriminate.
  - cbn. lia.
  - intros [|[|i]] Hi; [reflexivity | reflexivity | cbn in Hi; lia].
  - exact (proj1 (H eq_refl eq_refl logged_in)).
Defined.

(** ** All or nothing *)

Lemma finishReq_built (options : obj) (connectionOptions : value) (literal : obj)
  (w : World) :
  built options w (finishReq options connectionOptions literal w).
Proof.
  unfold finishReq. unfold bind at 1. unfold lift at 1.
  destruct (mergeOptions (VObj literal) connectionOptions) as [merged | e];
    [| left; eexists; reflexivity].
  unfold bind at 1.
  assert (forall ro : obj,
            built options w
              ((req0 <- http_request ro (prop options "callback") ;;
                removeHeader req0 "Host" ;;
                setHeader req0 "Host"
                  (VStr (to_string (prop options "host") ++ ":" ++
                         to_string (prop options "port"))) ;;
                ret req0) w)) as Hrest.
  { intros ro. unfold http_request.
    destruct (truthy (prop options "callback") &&
              negb (is_function (prop options "callback")));
      [left; eexists; reflexivity |].
    right. run. eexists. split; [reflexivity |]. cbn.
    repeat split. apply lookup_set_prop_same. }
  destruct (truthy (prop options "cookie")).
  - unfold lift. destruct (set_headers_Cookie merged (prop options "cookie"));
      [apply Hrest | left; eexists; reflexivity].
  - unfold ret at 1. apply Hrest.
Qed.

Ltac builder_built :=
  unfold bind at 1; unfold lift at 1;
  match goal with
  | |- context [testRequiredOptions ?o ?ks] =>
      destruct (testRequiredOptions o ks) as [[] | e];
      [apply finishReq_built | left; eexists; reflexivity]
  end.

Lemma getGetReq_built (options : obj) (co : value) (w : World) :
  built options w (getGetReq options co w).
Proof. unfold getGetReq. builder_built. Qed.

Lemma getDeleteReq_built (options : obj) (co : value) (w : World) :
  built options w (getDeleteReq options co w).
Proof. unfold getDeleteReq. builder_built. Qed.

Lemma getPostReq_built (options : obj) (co : value) (w : World) :
  built options w (getPostReq options co w).
Proof. unfold getPostReq. builder_built. Qed.

Lemma getPutReq_built (options : obj) (co : value) (w : World) :
  built options w (getPutReq options co w).
Proof. unfold getPutReq. builder_built. Qed.

(** X9.  Each of the four request builders either throws and leaves the
    world as it was, or hands the transport exactly one new request and
    returns it: the request has [options.callback] as callback, the Host
    header made of [options.host] and [options.port], no error listener, no
    body, and is not ended.  In particular a builder whose options lack a
    required field creates no request. *)
Theorem builders_all_or_nothing (builder : obj -> value -> M nat) (options : obj)
  (connectionOptions : value) (w : World) :
  In builder [getGetReq; getDeleteReq; getPostReq; getPutReq] ->
  built options w (builder options connectionOptions w) /\
  (truthy (prop options "path") = false ->
   builder options connectionOptions w =
   (Throw (JsError "Missing required argument: path"), w)).
Proof.
  intros [<- | [<- | [<- | [<- | []]]]]; split;
    try apply getGetReq_built; try apply getDeleteReq_built;
    try apply getPostReq_built; try apply getPutReq_built;
    intros Hp; unfold getGetReq, getDeleteReq, getPostReq, getPutReq;
    unfold bind, lift; cbn [testRequiredOptions member nullish];
    change (get_prop (VObj options) "path") with (prop options "path");
    rewrite Hp; reflexivity.
Qed.

Lemma builders_all_or_nothing_witness :
  getPutReq [("contentLength", VNum 2); ("contentType", VStr "application/json")]
    remote logged_in =
  (Throw (JsError "Missing required argument: path"), logged_in).
Proof.
  apply (builders_all_or_nothing getPutReq
           [("contentLength", VNum 2); ("contentType", VStr "application/json")]
           remote logged_in).
  - right. right. right. now left.
  - reflexivity.
Defined.

Lemma toJsonString_shape (v js : value) :
  toJsonString v = Ok js -> (exists s, js = VStr s) \/ js = VUndefined.
Proof.
  unfold toJsonString, JSON_stringify. destruct (isString v) eqn:E.
  - destruct v; try discriminate. intros H. injection H as <-. left. eauto.
  - destruct (stringify v); intros H; injection H as <-; [left; eauto | now right].
Qed.

Ltac after_builder Hb :=
  match goal with
  | |- context [?builder ?o ?c ?w] =>
      match type of Hb with
      | forall options co w, built options w (builder options co w) =>
          destruct (Hb o c w) as [[e He] | [r [Hr [_ [Hhost [Hls [Hwr _]]]]]]];
          [rewrite He; left; eexists; reflexivity | rewrite Hr; right]
      end
  end.

Lemma getJSON_sent (arguments : list value) (w : World) :
  sent [ErrorProxy] None (length (requests w)) w (getJSON arguments w).
Proof.
  unfold getJSON. unfold bind at 1. unfold lift at 1.
  destruct (parseOptions arguments ["path"] ["callback"]) as [options | e];
    [| left; eexists; reflexivity].
  do 3 (unfold bind at 1; unfold gets at 1). unfold bind at 1.
  after_builder getGetReq_built.
  run. eexists. split; [reflexivity |]. cbn. rewrite Hls.
  repeat split; [exact Hhost | discriminate].
Qed.

Lemma deleteJSON_sent (arguments : list value) (w : World) :
  sent [ErrorProxy] None (length (requests w)) w (deleteJSON arguments w).
Proof.
  unfold deleteJSON. unfold bind at 1. unfold lift at 1.
  destruct (parseOptions arguments ["path"] ["callback"]) as [options | e];
    [| left; eexists; reflexivity].
  do 3 (unfold bind at 1; unfold gets at 1). unfold bind at 1.
  after_builder getDeleteReq_built.
  run. eexists. split; [reflexivity |]. cbn. rewrite Hls.
  repeat split; [exact Hhost | discriminate].
Qed.

Lemma putJSON_sent (arguments : list value) (w : World) :
  sent [ErrorProxy] None (length (requests w)) w (putJSON arguments w).
Proof.
  unfold putJSON. unfold bind at 1. unfold lift at 1.
  destruct (parseOptions arguments ["path"; "body"] ["callback"]) as [options | e];
    [| left; eexists; reflexivity].
  unfold bind at 1. unfold lift at 1.
  destruct (toJsonString (prop options "body")) as [jsonString | e] eqn:Hjs;
    [| left; eexists; reflexivity].
  apply toJsonString_shape in Hjs as [[s ->] | ->];
    [| left; eexists; reflexivity].
  unfold bind at 1; unfold gets at 1. unfold bind at 1. unfold lift at 1.
  rewrite member_string_length.
  do 2 (unfold bind at 1; unfold gets at 1). unfold bind at 1.
  after_builder getPutReq_built.
  run. eexists. split; [reflexivity |]. cbn. rewrite Hls.
  repeat split; [exact Hhost | discriminate].
Qed.

Lemma postJSON_sent (arguments : list value) (w : World) :
  sent [ErrorProxy] None (length (requests w)) w (postJSON arguments w).
Proof.
  unfold postJSON. unfold bind at 1. unfold lift at 1.
  destruct (parseOptions arguments ["path"; "body"] ["callback"]) as [options | e];
    [| left; eexists; reflexivity].
  unfold bind at 1. unfold lift at 1.
  destruct (toJsonString (prop options "body")) as [jsonString | e] eqn:Hjs;
    [| left; eexists; reflexivity].
  apply toJsonString_shape in Hjs as [[s ->] | ->];
    [| left; eexists; reflexivity].
  unfold bind at 1; unfold gets at 1. unfold bind at 1. unfold lift at 1.
  rewrite member_string_length.
  do 2 (unfold bind at 1; unfold gets at 1). unfold bind at 1.
  after_builder getPostReq_built.
  run. eexists. split; [reflexivity |]. cbn. rewrite Hls.
  repeat split; [exact Hhost | discriminate].
Qed.

Lemma logOut_sent (options : value) (w : World) :
  sent [LogoutRequestFailure] (Some (VFun LogoutCallback)) tt w (logOut options w).
Proof.
  unfold logOut. unfold bind at 1; unfold gets at 1. cbn [set_prop String.eqb Ascii.eqb Bool.eqb].
  unfold bind at 1; unfold gets at 1. unfold bind at 1.
  match goal with
  | |- context [getGetReq ?o ?c ?w] =>
      destruct (getGetReq_built o c w) as [[e He] | [r [Hr [Hcb [Hhost [Hls [Hwr _]]]]]]];
      [rewrite He; left; eexists; reflexivity | rewrite Hr; right]
  end.
  run. eexists. split; [reflexivity |]. cbn. rewrite Hls.
  repeat split; [exact Hhost |]. intros f Hf. injection Hf as <-. exact Hcb.
Qed.

(** X10.  In any world and for any arguments, each of the four JSON verbs and
    [logOut] either throws and leaves the world as it was, or adds exactly one
    request to those handed to the transport and changes nothing else: the
    client's fields, the events emitted and the tick queue stay as they were.
    The new request is ended, has the error proxy (for [logOut], the
    'logoutRequestFailure' listener) as only error listener, and carries the
    Host header "undefined:undefined", whatever the connection target is; a
    verb returns its position. *)
Theorem calls_all_or_nothing (w : World) :
  (forall verb arguments,
     In verb [getJSON; putJSON; postJSON; deleteJSON] ->
     sent [ErrorProxy] None (length (requests w)) w (verb arguments w)) /\
  (forall options,
     sent [LogoutRequestFailure] (Some (VFun LogoutCallback)) tt w (logOut options w)).
Proof.
  split.
  - intros verb arguments [<- | [<- | [<- | [<- | []]]]].
    + apply getJSON_sent.
    + apply putJSON_sent.
    + apply postJSON_sent.
    + apply deleteJSON_sent.
  - intros options. apply logOut_sent.
Qed.

Lemma calls_all_or_nothing_witness :
  exists r,
    getJSON [VStr "/foo"] logged_in =
      (Ok 1%nat, set_requests (requests logged_in ++ [r])%list logged_in) /\
    lookup "Host" (req_headers r) = Some (VStr "undefined:undefined") /\
    req_errorListeners r = [ErrorProxy] /\
    req_ended r = true.
Proof.
  destruct (proj1 (calls_all_or_nothing logged_in) getJSON [VStr "/foo"]
              (or_introl eq_refl)) as [[e He] | [r [H1 [H2 [H3 [_ H5]]]]]].
  - vm_compute in He. discriminate.
  - exists r. repeat split; assumption.
Defined.

(** ** The login request *)

(** X11.  A call of [logIn] over host/port with a username and a password,
    or with neither, returns after handing the transport one request and
    storing the target: a POST to the given path or else '/login', with
    [agent: false], the stored host and port among its options, Content-Type
    'application/x-www-form-urlencoded', Content-Length equal to the length
    of the form body, the Host header made of the stored host and port, no
    Cookie header, the 'loginRequestFailure' listener as only error
    listener, and the form body written and ended.  String credentials are
    put into the form body as they are, without any escaping. *)
Theorem logIn_request (options : value) (w : World) :
  let safeOpts := or_else options (VObj []) in
  let host := or_else (get_prop safeOpts "host") (VStr "127.0.0.1") in
  let port := or_else (get_prop safeOpts "port") (VNum 3001) in
  truthy (get_prop safeOpts "username") = truthy (get_prop safeOpts "password") ->
  truthy (or_else (get_prop safeOpts "host") (get_prop safeOpts "port")) = true ->
  exists r data,
    logIn options w =
      (Ok tt,
       set_requests (requests w ++ [r])%list
         (set_self (set_connectionOptions (VObj [("host", host); ("port", port)]) (self w))
            w)) /\
    prop (req_options r) "method" = VStr "POST" /\
    prop (req_options r) "path" = or_else (get_prop safeOpts "path") (VStr "/login") /\
    lookup "agent" (req_options r) = Some (VBool false) /\
    lookup "host" (req_options r) = Some host /\
    lookup "port" (req_options r) = Some port /\
    lookup "Content-Type" (req_headers r) =
      Some (VStr "application/x-www-form-urlencoded") /\
    lookup "Content-Length" (req_headers r) = Some (VNum (Z.of_nat (String.length data))) /\
    lookup "Host" (req_headers r) = Some (VStr (to_string host ++ ":" ++ to_string port)) /\
    lookup "Cookie" (req_headers r) = None /\
    req_callback r = VFun LoginCallback /\
    req_errorListeners r = [LoginRequestFailure] /\
    req_written r = [data] /\
    req_ended r = true /\
    (forall u p,
       get_prop safeOpts "username" = VStr u ->
       get_prop safeOpts "password" = VStr p ->
       u <> "" ->
       data = "username=" ++ u ++ "&password=" ++ p).
Proof.
  intros safeOpts host port Hup Hhp.
  exists (login_request safeOpts), (login_data safeOpts).
  split; [exact (logIn_post options w Hup Hhp) |].
  split; [reflexivity |]. split; [reflexivity |]. split; [reflexivity |].
  split; [reflexivity |]. split; [reflexivity |]. split; [reflexivity |].
  split; [reflexivity |]. split; [reflexivity |]. split; [reflexivity |].
  split; [reflexivity |]. split; [reflexivity |]. split; [reflexivity |].
  split; [reflexivity |].
  intros u p Hu Hp Hne. unfold login_data.
  fold safeOpts in Hup |- *. rewrite Hu, Hp in *.
  assert (truthy (VStr u) = true) as Htu by (destruct u; [congruence | reflexivity]).
  unfold or_else. rewrite <- Hup, Htu. reflexivity.
Qed.

Lemma logIn_request_witness :
  exists r,
    fst (logIn (VObj [("host", VStr "h"); ("username", VStr "a&b"); ("password", VStr "c d")])
           newWorld) = Ok tt /\
    nth_error (requests (snd (logIn (VObj [("host", VStr "h"); ("username", VStr "a&b");
                                            ("password", VStr "c d")]) newWorld))) 0 =
      Some r /\
    lookup "Host" (req_headers r) = Some (VStr "h:3001") /\
    req_written r = ["username=a&b&password=c d"].
Proof.
  destruct (logIn_request (VObj [("host", VStr "h"); ("username", VStr "a&b");
                                 ("password", VStr "c d")]) newWorld eq_refl eq_refl)
    as [r [data [H1 [_ [_ [_ [_ [_ [_ [_ [H9 [_ [_ [_ [H13 [_ H15]]]]]]]]]]]]]]]].
  exists r. rewrite H1. repeat split.
  - exact H9.
  - rewrite H13. f_equal. apply (H15 "a&b" "c d"); [reflexivity | reflexivity | discriminate].
Defined.

(** ** Transport errors of login and logout *)

Lemma request_error_login (rs : list ClientRequest) (r : ClientRequest) (error : value)
  (w : World) :
  requests w = (rs ++ [r])%list ->
  req_errorListeners r = [LoginRequestFailure] ->
  request_error (length rs) error w =
  (Ok tt, set_emitted_snoc (Ev_loginRequestFailure error) w).
Proof.
  intros Hw Hl. unfold request_error. unfold bind at 1. unfold gets at 1.
  rewrite Hw, nth_error_snoc, Hl. reflexivity.
Qed.

Lemma request_error_logout (rs : list ClientRequest) (r : ClientRequest) (error : value)
  (w : World) :
  requests w = (rs ++ [r])%list ->
  req_errorListeners r = [LogoutRequestFailure] ->
  request_error (length rs) error w =
  (Ok tt, set_emitted_snoc (Ev_logoutRequestFailure error) w).
Proof.
  intros Hw Hl. unfold request_error. unfold bind at 1. unfold gets at 1.
  rewrite Hw, nth_error_snoc, Hl. reflexivity.
Qed.

(** X12.  When the transport reports an error on the login request, the
    client emits 'loginRequestFailure' with that error and nothing else: it
    emits no 'error' event, so nothing is thrown even when nobody listens,
    [loggedIn] and [sid] stay as they were before [logIn], and the target
    stored by [logIn] stays in place. *)
Theorem login_transport_error (options error : value) (w : World) :
  let safeOpts := or_else options (VObj []) in
  truthy (get_prop safeOpts "username") = truthy (get_prop safeOpts "password") ->
  truthy (or_else (get_prop safeOpts "host") (get_prop safeOpts "port")) = true ->
  let w1 := snd (logIn options w) in
  let w2 := snd (request_error (length (requests w)) error w1) in
  fst (request_error (length (requests w)) error w1) = Ok tt /\
  emitted w2 = (emitted w ++ [Ev_loginRequestFailure error])%list /\
  loggedIn (self w2) = loggedIn (self w) /\
  sid (self w2) = sid (self w) /\
  connectionOptions (self w2) = connectionOptions (self w1) /\
  requests w2 = requests w1.
Proof.
  intros safeOpts Hup Hhp w1 w2. subst w1 w2.
  rewrite (logIn_post options w Hup Hhp). cbn [snd].
  rewrite (request_error_login (requests w) (login_request safeOpts)) by reflexivity.
  repeat split.
Qed.

Lemma login_transport_error_witness :
  let w2 := snd (request_error 0 (VStr "ECONNREFUSED") logged_in) in
  fst (request_error 0 (VStr "ECONNREFUSED") logged_in) = Ok tt /\
  emitted w2 = [Ev_loginRequestFailure (VStr "ECONNREFUSED")] /\
  loggedIn (self w2) = false /\
  sid (self w2) = VUndefined.
Proof.
  destruct (login_transport_error remote (VStr "ECONNREFUSED") newWorld eq_refl eq_refl)
    as [H1 [H2 [H3 [H4 _]]]].
  repeat split; assumption.
Defined.

(** X13.  When the transport reports an error on a logout request, the
    client emits 'logoutRequestFailure' with that error and nothing else; in
    particular [loggedIn] is not cleared. *)
Theorem logout_transport_error (options error : value) (target : obj) (w : World) :
  connectionOptions (self w) = VObj target ->
  is_target target ->
  let w1 := snd (logOut options w) in
  let w2 := snd (request_error (length (requests w)) error w1) in
  fst (logOut options w) = Ok tt /\
  fst (request_error (length (requests w)) error w1) = Ok tt /\
  emitted w2 = (emitted w ++ [Ev_logoutRequestFailure error])%list /\
  self w2 = self w /\
  requests w2 = requests w1.
Proof.
  intros Hco Ht w1 w2.
  destruct (logOut_sent options w) as [[e He] | [r [Hr [_ [Hls _]]]]].
  - destruct (logOut_spec options target w Hco Ht) as [r [Hr _]]. congruence.
  - subst w2 w1. rewrite Hr. cbn [fst snd].
    rewrite (request_error_logout (requests w) r) by (reflexivity || assumption).
    repeat split.
Qed.

Lemma logout_transport_error_witness :
  let w1 := snd (logOut VUndefined with_session) in
  let w2 := snd (request_error 1 (VStr "EPIPE") w1) in
  fst (request_error 1 (VStr "EPIPE") w1) = Ok tt /\
  emitted w2 = [Ev_login; Ev_logoutRequestFailure (VStr "EPIPE")] /\
  loggedIn (self w2) = true.
Proof.
  destruct (logout_transport_error VUndefined (VStr "EPIPE")
              [("host", VStr "10.0.0.5"); ("port", VNum 8080)] with_session
              eq_refl (target_host_port _ _))
    as [_ [H2 [H3 [H4 _]]]].
  split; [exact H2 |]. split; [exact H3 |].
  change (loggedIn (self (snd (request_error (length (requests with_session))
                                   (VStr "EPIPE") (snd (logOut VUndefined with_session)))))
          = true).
  now rewrite H4.
Defined.

(** ** What logout and a failed login leave behind *)

(** X14.  The response to a logout request clears [loggedIn] and nothing
    else: [sid] and the connection target stay, so a later [getJSON] is sent
    to the same target and still carries the session cookie. *)
Theorem logout_keeps_session (options : value) (response : IncomingMessage) (p : string)
  (target : obj) (w : World) :
  apiPrefix (self w) = "/lrs/api/v1.0" ->
  connectionOptions (self w) = VObj target ->
  is_target target ->
  truthy (sid (self w)) = true ->
  let w1 := snd (logOut options w) in
  let w2 := snd (respond (length (requests w)) response w1) in
  loggedIn (self w2) = false /\
  sid (self w2) = sid (self w) /\
  connectionOptions (self w2) = VObj target /\
  exists r,
    getJSON [VStr p] w2 =
      (Ok (length (requests w2)), set_requests (requests w2 ++ [r])%list w2) /\
    lookup "Cookie" (req_headers r) = Some (sid (self w)) /\
    (forall k v, In (k, v) target -> lookup k (req_options r) = Some v).
Proof.
  intros Hpre Hco Ht Hsid w1 w2.
  destruct (logOut_spec options target w Hco Ht) as [r [H1 [Hcb _]]].
  assert (w2 = set_emitted_snoc Ev_logout
                 (set_self (set_loggedIn false (self w1)) w1)) as Hw2.
  { subst w2. rewrite (respond_logout (requests w) r); [reflexivity | | exact Hcb].
    subst w1. now rewrite H1. }
  assert (self w1 = self w) as Hself by (subst w1; now rewrite H1).
  assert (sid (self w2) = sid (self w)) as Hs by (rewrite Hw2; cbn; now rewrite Hself).
  assert (connectionOptions (self w2) = VObj target) as Hc
    by (rewrite Hw2; cbn; now rewrite Hself).
  assert (apiPrefix (self w2) = "/lrs/api/v1.0") as Hp
    by (rewrite Hw2; cbn; now rewrite Hself).
  split; [now rewrite Hw2 |]. split; [exact Hs |]. split; [exact Hc |].
  exists (verb_request "GET" true (self w2) [("path", VStr p)] None target).
  destruct (verb_request_facts "GET" true (self w2) [("path", VStr p)] None target Ht)
    as [_ [_ [_ [F4 [F5 _]]]]].
  split; [| split].
  - apply getJSON_parsed; (reflexivity || assumption).
  - rewrite F5, Hs, Hsid. reflexivity.
  - exact F4.
Qed.

Lemma logout_keeps_session_witness :
  let w1 := snd (logOut VUndefined with_session) in
  let w2 := snd (respond (length (requests with_session)) not_found w1) in
  loggedIn (self w2) = false /\
  sid (self w2) = VStr "sid=abc123" /\
  exists r,
    getJSON [VStr "/foo"] w2 =
      (Ok (length (requests w2)), set_requests (requests w2 ++ [r])%list w2) /\
    lookup "Cookie" (req_headers r) = Some (VStr "sid=abc123").
Proof.
  destruct (logout_keeps_session VUndefined not_found "/foo"
              [("host", VStr "10.0.0.5"); ("port", VNum 8080)] with_session
              eq_refl eq_refl (target_host_port _ _) eq_refl)
    as [H1 [H2 [_ [r [H4 [H5 _]]]]]].
  split; [exact H1 |]. split; [exact H2 |].
  exists r. split; [exact H4 | exact H5].
Defined.

(** X15.  [logIn] switches the connection target at the time of the call.
    When the login over host/port then fails, because the response shows the
    login page, the new target stays in place while [loggedIn] and [sid]
    keep the values they had before the call. *)
Theorem failed_login_keeps_new_target (options : value) (response : IncomingMessage)
  (w : World) :
  let safeOpts := or_else options (VObj []) in
  truthy (get_prop safeOpts "username") = truthy (get_prop safeOpts "password") ->
  truthy (or_else (get_prop safeOpts "host") (get_prop safeOpts "port")) = true ->
  contains (read_body response) "login" ->
  let w2 := snd (respond (length (requests w)) response (snd (logIn options w))) in
  connectionOptions (self w2) =
    VObj [("host", or_else (get_prop safeOpts "host") (VStr "127.0.0.1"));
          ("port", or_else (get_prop safeOpts "port") (VNum 3001))] /\
  loggedIn (self w2) = loggedIn (self w) /\
  sid (self w2) = sid (self w) /\
  apiPrefix (self w2) = apiPrefix (self w).
Proof.
  intros safeOpts Hup Hhp Hc w2. subst w2.
  rewrite (logIn_post options w Hup Hhp). cbn [snd].
  rewrite (respond_login (requests w) (login_request safeOpts)) by reflexivity.
  rewrite (loginCallback_failure _ _ Hc). repeat split.
Qed.

Lemma failed_login_keeps_new_target_witness :
  let w2 := snd (respond 2 login_page
                   (snd (logIn (VObj [("port", VNum 9000)])
                           (snd (getJSON [VStr "/foo"] with_session))))) in
  connectionOptions (self w2) = VObj [("host", VStr "127.0.0.1"); ("port", VNum 9000)] /\
  loggedIn (self w2) = true /\
  sid (self w2) = VStr "sid=abc123".
Proof.
  destruct (failed_login_keeps_new_target (VObj [("port", VNum 9000)]) login_page
              (snd (getJSON [VStr "/foo"] with_session)) eq_refl eq_refl)
    as [H1 [H2 [H3 _]]].
  { exists "<html>", "</html>". reflexivity. }
  repeat split; assumption.
Defined.

(** ** Invariants *)

Lemma preserves_ret {A : Type} (I : World -> Prop) (a : A) : preserves I (ret a).
Proof. now intros w H. Qed.

Lemma preserves_throw {A : Type} (I : World -> Prop) (e : jsError) :
  preserves I (@throw A e).
Proof. now intros w H. Qed.

Lemma preserves_lift {A : Type} (I : World -> Prop) (o : outcome A) :
  preserves I (lift o).
Proof. now intros w H. Qed.

Lemma preserves_gets {A : Type} (I : World -> Prop) (f : World -> A) :
  preserves I (gets f).
Proof. now intros w H. Qed.

Lemma preserves_bind {A B : Type} (I : World -> Prop) (m : M A) (k : A -> M B) :
  preserves I m -> (forall a, preserves I (k a)) -> preserves I (bind m k).
Proof.
  intros Hm Hk w H. unfold bind. specialize (Hm w H).
  destruct (m w) as [[a | e] w']; cbn in *; [now apply Hk | exact Hm].
Qed.

Lemma preserves_modify (I : World -> Prop) (f : World -> World) :
  (forall w, I w -> I (f w)) -> preserves I (modify f).
Proof. intros Hf w H. now apply Hf. Qed.

Lemma world_ok_emit (e : event) : preserves world_ok (emit e).
Proof.
  unfold emit. apply preserves_bind.
  - apply preserves_modify. intros w [[H1 [H2 [H3 H4]]] Hr].
    split; [| exact Hr]. repeat split; try assumption.
    intros Hl. cbn. apply in_or_app. left. now apply H4.
  - intros _. destruct e; try apply preserves_ret.
    apply preserves_bind; [apply preserves_gets |].
    intros n. destruct (n =? 0)%nat; [apply preserves_throw | apply preserves_ret].
Qed.

Lemma world_ok_console_log (line : string) : preserves world_ok (console_log line).
Proof. apply preserves_modify. now intros w H. Qed.

Lemma world_ok_record_call (c : userCall) : preserves world_ok (record_call c).
Proof. apply preserves_modify. now intros w H. Qed.

(** Setting [loggedIn], with [sid] or without, and emitting 'login'. *)
Lemma world_ok_login (w : World) (c : Client) :
  world_ok w ->
  apiPrefix c = apiPrefix (self w) ->
  connectionOptions c = connectionOptions (self w) ->
  (sid c = VUndefined \/ exists s, sid c = VStr s) ->
  world_ok (set_emitted_snoc Ev_login (set_self c w)).
Proof.
  intros [[H1 [H2 [H3 H4]]] Hr] Ha Hc Hs. split; [| exact Hr].
  unfold session_ok. cbn. rewrite Ha, Hc. repeat split; try assumption.
  intros _. apply in_or_app. right. now left.
Qed.

Lemma world_ok_loginCallback (response : IncomingMessage) :
  preserves world_ok (loginCallback response).
Proof.
  unfold loginCallback.
  destruct (negb (indexOf (read_body response) "login" =? -1)%Z);
    [apply world_ok_emit |].
  intros w H. unfold bind at 1. unfold lift at 1.
  destruct (split_method _ "; ") as [parts | e]; [| exact H].
  apply (world_ok_login w
           (set_loggedIn true
              (set_sid match parts with
                       | p :: _ => VStr p
                       | [] => VUndefined
                       end (self w)))); [exact H | reflexivity | reflexivity |].
  cbn. destruct parts; [now left | right; eauto].
Qed.

Lemma world_ok_logoutCallback (response : IncomingMessage) :
  preserves world_ok (logoutCallback response).
Proof.
  unfold logoutCallback. apply preserves_bind; [| intros _; apply world_ok_emit].
  apply preserves_modify. intros w [[H1 [H2 [H3 H4]]] Hr].
  split; [| exact Hr]. repeat split; try assumption. discriminate.
Qed.

Lemma world_ok_printResponse (response : IncomingMessage) :
  preserves world_ok (printResponse response).
Proof.
  unfold printResponse. apply preserves_bind; [apply world_ok_console_log |].
  intros _. destruct (negb (read_body response =? ""));
    [apply world_ok_console_log | apply preserves_ret].
Qed.

Lemma world_ok_respond (req : nat) (response : IncomingMessage) :
  preserves world_ok (respond req response).
Proof.
  unfold respond. apply preserves_bind; [apply preserves_gets |].
  intros rs. destruct (nth_error rs req) as [r |]; [| apply preserves_ret].
  destruct (req_callback r); try apply preserves_ret.
  destruct f; cbn [call_callback].
  - apply world_ok_record_call.
  - apply world_ok_printResponse.
  - apply world_ok_loginCallback.
  - apply world_ok_logoutCallback.
Qed.

Lemma world_ok_run_errorListeners (req : nat) (ls : list errorListener) (error : value) :
  preserves world_ok (run_errorListeners req ls error).
Proof.
  induction ls as [|l ls IH]; [apply preserves_ret |].
  cbn [run_errorListeners]. apply preserves_bind; [| intros _; exact IH].
  destruct l; cbn [run_errorListener]; try apply world_ok_emit;
    [| apply world_ok_record_call].
  apply preserves_bind; [apply preserves_gets |]. intros rs.
  match goal with
  | |- context [if ?b then _ else _] => destruct b
  end; [apply preserves_ret | apply world_ok_emit].
Qed.

Lemma world_ok_request_error (req : nat) (error : value) :
  preserves world_ok (request_error req error).
Proof.
  unfold request_error. apply preserves_bind; [apply preserves_gets |].
  intros rs. destruct (nth_error rs req) as [r |]; [| apply preserves_ret].
  destruct (req_errorListeners r) as [|l ls] eqn:E; [apply preserves_throw |].
  apply world_ok_run_errorListeners.
Qed.

Lemma world_ok_next_tick : preserves world_ok next_tick.
Proof.
  intros w H. unfold next_tick. unfold bind at 1. unfold gets at 1.
  destruct (nextTickQueue w) as [|[] q]; [exact H |].
  apply (world_ok_login (set_nextTickQueue q w)
           (set_loggedIn true (self w))); [exact H | reflexivity | reflexivity |].
  destruct H as [[_ [_ [H3 _]]] _]. exact H3.
Qed.

Lemma world_ok_client_on_error : preserves world_ok client_on_error.
Proof. apply preserves_modify. now intros w H. Qed.

Lemma Forall_alter_nth {A : Type} (P : A -> Prop) (f : A -> A) (i : nat) (l : list A) :
  (forall x, P x -> P (f x)) -> Forall P l -> Forall P (alter_nth i f l).
Proof.
  intros Hf H. revert i. induction H as [|x l Hx Hl IH]; intros i;
    [destruct i; constructor |].
  destruct i; cbn [alter_nth]; constructor; auto.
Qed.

Lemma world_ok_request_on_error (req : nat) (f : fn) :
  preserves world_ok (request_on_error req f).
Proof.
  apply preserves_modify. intros w [Hs Hr]. split; [exact Hs |]. cbn.
  apply Forall_alter_nth; [| exact Hr].
  intros r [He [l [fs [Hl Hin]]]]. split; [exact He |].
  exists l, (fs ++ [f])%list. split; [| exact Hin]. cbn.
  rewrite Hl, map_app. reflexivity.
Qed.

Lemma world_ok_sent {A : Type} (l : errorListener) (cb : option value) (a : A)
  (w : World) (result : outcome A * World) :
  In l [ErrorProxy; LoginRequestFailure; LogoutRequestFailure] ->
  sent [l] cb a w result -> world_ok w -> world_ok (snd result).
Proof.
  intros Hin [[e ->] | [r [-> [_ [Hl [_ He]]]]]] H; [exact H |].
  destruct H as [Hs Hr]. split; [exact Hs |]. cbn.
  apply Forall_app. split; [exact Hr |]. constructor; [| constructor].
  split; [exact He |]. exists l, []. now split.
Qed.

Lemma world_ok_logIn (options : value) : preserves world_ok (logIn options).
Proof.
  intros w H. set (safeOpts := or_else options (VObj [])).
  destruct (Bool.bool_dec (truthy (get_prop safeOpts "username"))
              (truthy (get_prop safeOpts "password"))) as [Hup | Hup].
  - destruct H as [[H1 [H2 [H3 H4]]] Hr].
    destruct (truthy (or_else (get_prop safeOpts "host") (get_prop safeOpts "port")))
      eqn:Hhp.
    + rewrite (logIn_post options w Hup Hhp). split.
      * repeat split; try assumption. right. left.
        exists (login_host safeOpts), (login_port safeOpts).
        split; [reflexivity |]. split; now apply truthy_or_else_r.
      * cbn. apply Forall_app. split; [exact Hr |]. constructor; [| constructor].
        split; [reflexivity |]. exists LoginRequestFailure, []. split; [reflexivity |].
        right. now left.
    + rewrite (logIn_unix_socket options w Hup Hhp). split; [| exact Hr].
      repeat split; try assumption. right. now right.
  - rewrite (logIn_invalid options w Hup). now apply world_ok_emit.
Qed.

(** X16.  In every world that can arise from [new Client()], whatever the
    caller and the host do: [apiPrefix] is '/lrs/api/v1.0'; the connection
    target is undefined, or a truthy host with a truthy port, or the path of
    the local socket; [sid] is undefined or a string; [loggedIn] is true
    only if 'login' has been emitted; and every request handed to the
    transport is ended and has one error listener of the module, which comes
    before those of the caller. *)
Theorem reachable_world_ok (w : World) : reachable w -> world_ok w.
Proof.
  induction 1 as [| w options _ IH | w options _ IH | w args _ IH | w args _ IH
                  | w args _ IH | w args _ IH | w _ IH | w req f _ IH
                  | w req response _ IH | w req error _ IH | w _ IH].
  - split; [| constructor]. repeat split; [now left | now left | discriminate].
  - now apply world_ok_logIn.
  - refine (world_ok_sent LogoutRequestFailure _ tt w _ _ (logOut_sent options w) IH).
    right. right. now left.
  - exact (world_ok_sent ErrorProxy _ _ w _ (or_introl eq_refl) (getJSON_sent args w) IH).
  - exact (world_ok_sent ErrorProxy _ _ w _ (or_introl eq_refl) (putJSON_sent args w) IH).
  - exact (world_ok_sent ErrorProxy _ _ w _ (or_introl eq_refl) (postJSON_sent args w) IH).
  - exact (world_ok_sent ErrorProxy _ _ w _ (or_introl eq_refl) (deleteJSON_sent args w) IH).
  - now apply world_ok_client_on_error.
  - now apply world_ok_request_on_error.
  - now apply world_ok_respond.
  - now apply world_ok_request_error.
  - now apply world_ok_next_tick.
Qed.

Lemma reachable_world_ok_witness : world_ok with_session.
Proof.
  apply reachable_world_ok.
  apply (reach_respond _ 0 welcome), (reach_logIn _ remote), reach_new.
Defined.

(** ** The default callback *)

(** X17.  When the response arrives for a request whose callback is
    [printResponse], which is the callback of every verb called without one,
    the status line is printed, followed by the body line when the body is
    not empty; the client, the events and the requests stay as they were. *)
Theorem printResponse_logs (req : nat) (r : ClientRequest) (response : IncomingMessage)
  (w : World) :
  nth_error (requests w) req = Some r ->
  req_callback r = VFun PrintResponse ->
  respond req response w =
  (Ok tt,
   set_console
     (console w ++
      [("Management REST xaction STATUS: " ++
        number_to_string (statusCode response))%string] ++
      (if (read_body response =? "")%string then []
       else [("Management REST xaction BODY: " ++ read_body response)%string]))%list w).
Proof.
  intros Hr Hcb. unfold respond. unfold bind at 1. unfold gets at 1.
  rewrite Hr, Hcb. cbn [call_callback]. unfold printResponse.
  destruct (read_body response =? ""); run; rewrite <- ?app_assoc; reflexivity.
Qed.

Lemma printResponse_logs_witness :
  let w1 := snd (getJSON [VStr "/foo"] with_session) in
  console (snd (respond 1 (mkResponse 200 [] ["{"; "}"]) w1)) =
    ["Management REST xaction STATUS: 200"; "Management REST xaction BODY: {}"] /\
  console (snd (respond 1 not_found w1)) = ["Management REST xaction STATUS: 404"].
Proof.
  pose (r := nth 1 (requests (snd (getJSON [VStr "/foo"] with_session)))
               (login_request VUndefined)).
  split.
  - rewrite (printResponse_logs 1 r (mkResponse 200 [] ["{"; "}"])
               (snd (getJSON [VStr "/foo"] with_session)) eq_refl eq_refl).
    reflexivity.
  - rewrite (printResponse_logs 1 r not_found
               (snd (getJSON [VStr "/foo"] with_session)) eq_refl eq_refl).
    reflexivity.
Defined.

(** ** The outcome of a proxied error *)

Lemma run_user_listeners_calls (fs : list fn) (req : nat) (error : value) (w : World) :
  run_errorListeners req (map UserListener fs) error w =
  (Ok tt,
   set_userCalls (userCalls w ++ map (fun f => CalledWithError f error) fs)%list w).
Proof.
  revert w; induction fs as [|f fs IH]; intros w.
  - cbn. unfold ret. rewrite app_nil_r. now destruct w.
  - cbn [map run_errorListeners run_errorListener]. unfold bind at 1.
    unfold record_call, modify. rewrite IH. cbn. now rewrite <- app_assoc.
Qed.

(** X18.  For a request a JSON verb has returned, on which the caller has
    then registered the error listeners [fs], a transport error has one of
    three outcomes.  With listeners of the caller, each of them is called
    once with the error, in the order of registration, and the client emits
    nothing.  Without them, the client emits 'error' with the error; if
    nobody listens to the client's 'error' event either, the error is thrown
    as unhandled. *)
Theorem proxied_error_outcome (verb : list value -> M nat) (arguments : list value)
  (fs : list fn) (error : value) (w w1 : World) (req : nat) :
  In verb [getJSON; putJSON; postJSON; deleteJSON] ->
  verb arguments w = (Ok req, w1) ->
  let w2 := snd (caller_listens req fs w1) in
  request_error req error w2 =
  match fs with
  | [] =>
      (if (clientErrorListeners (self w2) =? 0)%nat
       then Throw (UnhandledError error)
       else Ok tt,
       set_emitted_snoc (Ev_error error) w2)
  | _ :: _ =>
      (Ok tt,
       set_userCalls (userCalls w2 ++ map (fun f => CalledWithError f error) fs)%list w2)
  end.
Proof.
  intros Hverb Hcall w2.
  assert (appended w w1 req [ErrorProxy]) as [-> [r [-> Hr]]].
  { destruct Hverb as [<- | [<- | [<- | [<- | []]]]].
    - now apply getJSON_appended with arguments.
    - now apply putJSON_appended with arguments.
    - now apply postJSON_appended with arguments.
    - now apply deleteJSON_appended with arguments. }
  destruct (caller_listens_snoc fs (requests w) r
              (set_requests (requests w ++ [r])%list w) eq_refl) as [r' [H1 H2]].
  rewrite Hr in H2. cbn [app] in H2.
  assert (nth_error (requests w2) (length (requests w)) = Some r') as Hnth.
  { subst w2. rewrite H1. cbn. apply nth_error_snoc. }
  unfold request_error. unfold bind at 1. unfold gets at 1. rewrite Hnth, H2.
  cbn [run_errorListeners run_errorListener].
  unfold bind at 1. unfold bind at 1. unfold gets at 1. rewrite Hnth, H2.
  cbn [length]. rewrite length_map. destruct fs as [|f fs].
  - cbn [length Nat.ltb Nat.leb map]. rewrite emit_error.
    destruct (clientErrorListeners (self w2) =? 0)%nat; reflexivity.
  - cbn [length Nat.ltb Nat.leb]. unfold ret at 1.
    apply run_user_listeners_calls.
Qed.

Lemma proxied_error_outcome_witness :
  let w1 := snd (getJSON [VStr "/foo"] logged_in) in
  let f := UserFn 3 "function (e) {}" in
  fst (request_error 1 (VStr "ECONNRESET") w1) =
    Throw (UnhandledError (VStr "ECONNRESET")) /\
  request_error 1 (VStr "ECONNRESET") (snd (caller_listens 1 [f] w1)) =
    (Ok tt,
     set_userCalls [CalledWithError f (VStr "ECONNRESET")] (snd (caller_listens 1 [f] w1))).
Proof.
  split.
  - exact (f_equal fst
             (proxied_error_outcome getJSON [VStr "/foo"] [] (VStr "ECONNRESET")
                logged_in (snd (getJSON [VStr "/foo"] logged_in)) 1
                (or_introl eq_refl) eq_refl)).
  - exact (proxied_error_outcome getJSON [VStr "/foo"] [UserFn 3 "function (e) {}"]
             (VStr "ECONNRESET")
             logged_in (snd (getJSON [VStr "/foo"] logged_in)) 1
             (or_introl eq_refl) eq_refl).
Defined.

(** ** From login to request *)

(** X19.  After a login over the local socket the verbs use the socket at
    once, before the tick that emits 'login': a [getJSON] right after
    [logIn] carries the socket path among its request options and neither
    host nor port, also when the client was connected by host/port before. *)
Theorem socket_login_then_get (options : value) (p : string) (w : World) :
  let safeOpts := or_else options (VObj []) in
  apiPrefix (self w) = "/lrs/api/v1.0" ->
  truthy (get_prop safeOpts "username") = truthy (get_prop safeOpts "password") ->
  truthy (or_else (get_prop safeOpts "host") (get_prop safeOpts "port")) = false ->
  let w1 := snd (logIn options w) in
  loggedIn (self w1) = loggedIn (self w) /\
  exists r,
    getJSON [VStr p] w1 =
      (Ok (length (requests w1)), set_requests (requests w1 ++ [r])%list w1) /\
    requests w1 = requests w /\
    lookup "socketPath" (req_options r) = Some (VStr "/tmp/rest_server/http.sock") /\
    lookup "host" (req_options r) = None /\
    lookup "port" (req_options r) = None /\
    prop (req_options r) "path" = VStr ("/lrs/api/v1.0" ++ p).
Proof.
  intros safeOpts Hpre Hup Hhp w1. subst w1.
  rewrite (logIn_unix_socket options w Hup Hhp). cbn [snd]. split; [reflexivity |].
  eexists. split.
  - apply (getJSON_parsed [VStr p] [("path", VStr p)]
             [("socketPath", VStr unixSockName)]);
      try reflexivity; [exact Hpre | constructor].
  - cbn. rewrite Hpre. destruct (truthy (sid (self w))); repeat split.
Qed.

Lemma socket_login_then_get_witness :
  let w1 := snd (logIn VUndefined with_session) in
  exists r,
    getJSON [VStr "/foo"] w1 =
      (Ok (length (requests w1)), set_requests (requests w1 ++ [r])%list w1) /\
    lookup "socketPath" (req_options r) = Some (VStr "/tmp/rest_server/http.sock") /\
    lookup "host" (req_options r) = None.
Proof.
  destruct (socket_login_then_get VUndefined "/foo" with_session eq_refl eq_refl eq_refl)
    as [_ [r [H1 [_ [H2 [H3 _]]]]]].
  exists r. repeat split; assumption.
Defined.

(** X20.  From login to request: after a login over host/port whose
    response does not show the login page and carries a Set-Cookie header,
    the client is logged in, and a [getJSON] is sent to the stored host and
    port with a Cookie header equal to the first Set-Cookie value cut at the
    first "; ", when that is not empty. *)
Theorem login_then_get (options : value) (response : IncomingMessage) (hdr p : string)
  (w : World) :
  let safeOpts := or_else options (VObj []) in
  apiPrefix (self w) = "/lrs/api/v1.0" ->
  truthy (get_prop safeOpts "username") = truthy (get_prop safeOpts "password") ->
  truthy (or_else (get_prop safeOpts "host") (get_prop safeOpts "port")) = true ->
  ~ contains (read_body response) "login" ->
  first_set_cookie response = Some hdr ->
  let w2 := snd (respond (length (requests w)) response (snd (logIn options w))) in
  exists t,
    truncated_at_first "; " hdr t /\
    loggedIn (self w2) = true /\
    (t <> "" ->
     exists r,
       getJSON [VStr p] w2 =
         (Ok (length (requests w2)), set_requests (requests w2 ++ [r])%list w2) /\
       lookup "Cookie" (req_headers r) = Some (VStr t) /\
       lookup "host" (req_options r) =
         Some (or_else (get_prop safeOpts "host") (VStr "127.0.0.1")) /\
       lookup "port" (req_options r) =
         Some (or_else (get_prop safeOpts "port") (VNum 3001))).
Proof.
  intros safeOpts Hpre Hup Hhp Hc Hh w2. subst w2.
  rewrite (logIn_post options w Hup Hhp). cbn [snd].
  rewrite (respond_login (requests w) (login_request safeOpts)) by reflexivity.
  match goal with
  | |- context [loginCallback response ?w1] =>
      destruct (loginCallback_success response hdr w1 Hc Hh) as [t [Ht ->]]
  end.
  exists t. split; [exact Ht |]. split; [reflexivity |].
  intros Hne. cbn [snd].
  assert (truthy (VStr t) = true) as Htt by (destruct t; [congruence | reflexivity]).
  match goal with
  | |- context [getJSON [VStr p] ?w2] =>
      exists (verb_request "GET" true (self w2) [("path", VStr p)] None
                [("host", login_host safeOpts); ("port", login_port safeOpts)]);
      destruct (verb_request_facts "GET" true (self w2) [("path", VStr p)] None
                  [("host", login_host safeOpts); ("port", login_port safeOpts)]
                  (target_host_port _ _)) as [_ [_ [_ [F4 [F5 _]]]]]
  end.
  split; [| split; [| split]].
  - apply getJSON_parsed; try reflexivity; [exact Hpre | constructor].
  - match type of F5 with
    | context [truthy (sid ?c)] => change (sid c) with (VStr t) in F5
    end.
    now rewrite Htt in F5.
  - apply F4. now left.
  - apply F4. right. now left.
Qed.

Lemma login_then_get_witness :
  exists t r,
    truncated_at_first "; " "sid=abc123; Path=/" t /\
    (t <> "" ->
     getJSON [VStr "/foo"] with_session =
       (Ok (length (requests with_session)),
        set_requests (requests with_session ++ [r])%list with_session) /\
     lookup "Cookie" (req_headers r) = Some (VStr t)).
Proof.
  destruct (login_then_get remote welcome "sid=abc123; Path=/" "/foo" newWorld
              eq_refl eq_refl eq_refl) as [t [H1 [_ H3]]].
  - apply not_contains_indexOf. reflexivity.
  - reflexivity.
  - destruct (string_dec t "") as [He | Hne].
    + exists t, (login_request VUndefined). split; [exact H1 |]. intros Hn. contradiction.
    + destruct (H3 Hne) as [r [H4 [H5 _]]].
      exists t, r. split; [exact H1 |]. intros _. split; assumption.
Defined.
